(** * A shallow embedding of the [trader-state] replicator of otree_markets

    The component keeps a local replica of the market: two order books, a
    list of trades and the viewer's holdings, all driven by the messages of
    [src/message_types.txt].  Every method of [TraderState] that touches that
    replica is rendered below as a function on an explicit [state]. *)

From Stdlib Require Import ZArith QArith Lia Lqa Sorted Ascii.
From stdpp Require Import gmap strings list fin_maps.

Local Open Scope Z_scope.

(** ** Numbers

    Every number of the component is an IEEE double.  Prices, volumes and
    order ids are [int] in the messaging spec and the holdings are only ever
    changed by sums and products of such integers, so the doubles that occur
    are integers, an infinity (after an overflow) or [NaN] (after
    [undefined + n]).  An integer is held exactly up to 2^53 in magnitude;
    beyond that a double holds the nearest integer that has 53 significant
    bits, ties going to the even one, and from 2^1024 on an infinity.

    [Num z] stands for the double nearest to the integer [z]: the payload of
    a parsed message holds such doubles, and writing [Num (p * v)] for a
    product gives the double that [p * v] evaluates to, the product of two
    doubles being rounded once.

    Timestamps are finite doubles, which are rationals: the sign of a
    difference of two finite doubles is the sign of their exact difference
    (gradual underflow), hence the comparisons made by the code are the
    comparisons of [Q]. *)

Inductive number :=
| Num (z : Z)
| Infinity (negative : bool)
| NaN.

(** The integers up to 2^53 in magnitude, which a double holds exactly and
    among which sums and differences are exact. *)
Definition safe (z : Z) : Prop := Z.abs z <= 2 ^ 53.

(** The integer with 53 significant bits nearest to [z], ties to even. *)
Definition round_to_double (z : Z) : Z :=
  let m := Z.abs z in
  if m <=? 2 ^ 53 then z
  else
    let e := Z.log2 m - 52 in          (* the doubles around m are 2^e apart *)
    let q := m / 2 ^ e in
    let r := m mod 2 ^ e in
    let half := 2 ^ (e - 1) in
    let q' := if (half <? r) || ((r =? half) && Z.odd q) then q + 1 else q in
    Z.sgn z * (q' * 2 ^ e).

(** The double nearest to the integer [z]. *)
Definition double_of (z : Z) : number :=
  let r := round_to_double z in
  if 2 ^ 1024 <=? Z.abs r then Infinity (r <? 0) else Num r.

(** The double a number stands for. *)
Definition normal (a : number) : number :=
  match a with
  | Num z => double_of z
  | _ => a
  end.

(** [a + b] on numbers. *)
Definition js_add (a b : number) : number :=
  match normal a, normal b with
  | Num x, Num y => double_of (x + y)
  | Num _, Infinity n => Infinity n
  | Infinity n, Num _ => Infinity n
  | Infinity n, Infinity n' => if Bool.eqb n n' then Infinity n else NaN
  | _, _ => NaN
  end.

(** [- a] on numbers. *)
Definition js_neg (a : number) : number :=
  match a with
  | Num z => Num (- z)
  | Infinity n => Infinity (negb n)
  | NaN => NaN
  end.

(** [a - b] on numbers; a double subtraction is the addition of the
    opposite. *)
Definition js_sub (a b : number) : number := js_add a (js_neg b).

(** [old + amount] where [old] was read from an object and may be
    [undefined] ([None]); [undefined + n] is [NaN]. *)
Definition js_add_undef (old : option number) (amount : number) : number :=
  match old with
  | Some a => js_add a amount
  | None => NaN
  end.

(** [x < 0] and [x > 0] on the value returned by the comparator. *)
Definition Qltb (x y : Q) : bool := negb (Qle_bool y x).

(** ** Messages ([src/message_types.txt]) *)

Record order := {
  timestamp : Q;
  price : Z;
  volume : Z;
  is_bid : bool;
  pcode : string;
  traded_volume : Z;
  order_id : Z;
  asset_name : string;
}.

(** The payload of [confirm_trade]; the handler stores an object with the
    same four fields in [trades]. *)
Record trade := {
  trade_timestamp : Q;
  trade_asset_name : string;
  taking_order : order;
  making_orders : list order;
}.

(** The payload of [error]. *)
Record error_payload := {
  error_pcode : string;
  error_message : string;
}.

Inductive payload :=
| POrder (o : order)
| PTrade (t : trade)
| PError (e : error_payload).

(** "every message has a type field and a payload field". *)
Record message := {
  type : string;
  msg_payload : payload;
}.

(** ** What the component emits *)

Inductive effect :=
| Warn (id : Z) (store : string)
    (* console.warn(`order with id ${id} not found in ${store}`) *)
| Dispatch (event : string) (detail : payload)
    (* this.dispatchEvent(new CustomEvent(event, {detail: ...})) *)
| DispatchError (message : string).
    (* the 'error' event of _handle_error, whose detail is msg.message *)

(** ** The replica

    The properties of [TraderState] that the handlers read and write, and
    [this.pcode].  The two dictionaries are distinct objects, seeded from
    [TRADER_STATE.settled_assets] and [TRADER_STATE.available_assets].
    [emitted] records, in order, what the component has written to the
    console and dispatched so far. *)

Record state := {
  this_pcode : string;
  bids : list order;
  asks : list order;
  trades : list trade;
  settledAssetsDict : gmap string number;
  availableAssetsDict : gmap string number;
  settledCash : number;
  availableCash : number;
  emitted : list effect;   (* oldest first *)
}.

Definition set_bids (f : list order -> list order) (s : state) : state :=
  {| this_pcode := this_pcode s; bids := f (bids s); asks := asks s;
     trades := trades s; settledAssetsDict := settledAssetsDict s;
     availableAssetsDict := availableAssetsDict s;
     settledCash := settledCash s; availableCash := availableCash s;
     emitted := emitted s |}.

Definition set_asks (f : list order -> list order) (s : state) : state :=
  {| this_pcode := this_pcode s; bids := bids s; asks := f (asks s);
     trades := trades s; settledAssetsDict := settledAssetsDict s;
     availableAssetsDict := availableAssetsDict s;
     settledCash := settledCash s; availableCash := availableCash s;
     emitted := emitted s |}.

Definition set_trades (f : list trade -> list trade) (s : state) : state :=
  {| this_pcode := this_pcode s; bids := bids s; asks := asks s;
     trades := f (trades s); settledAssetsDict := settledAssetsDict s;
     availableAssetsDict := availableAssetsDict s;
     settledCash := settledCash s; availableCash := availableCash s;
     emitted := emitted s |}.

Definition set_settledAssetsDict
    (f : gmap string number -> gmap string number) (s : state) : state :=
  {| this_pcode := this_pcode s; bids := bids s; asks := asks s;
     trades := trades s; settledAssetsDict := f (settledAssetsDict s);
     availableAssetsDict := availableAssetsDict s;
     settledCash := settledCash s; availableCash := availableCash s;
     emitted := emitted s |}.

Definition set_availableAssetsDict
    (f : gmap string number -> gmap string number) (s : state) : state :=
  {| this_pcode := this_pcode s; bids := bids s; asks := asks s;
     trades := trades s; settledAssetsDict := settledAssetsDict s;
     availableAssetsDict := f (availableAssetsDict s);
     settledCash := settledCash s; availableCash := availableCash s;
     emitted := emitted s |}.

Definition set_settledCash (f : number -> number) (s : state) : state :=
  {| this_pcode := this_pcode s; bids := bids s; asks := asks s;
     trades := trades s; settledAssetsDict := settledAssetsDict s;
     availableAssetsDict := availableAssetsDict s;
     settledCash := f (settledCash s); availableCash := availableCash s;
     emitted := emitted s |}.

Definition set_availableCash (f : number -> number) (s : state) : state :=
  {| this_pcode := this_pcode s; bids := bids s; asks := asks s;
     trades := trades s; settledAssetsDict := settledAssetsDict s;
     availableAssetsDict := availableAssetsDict s;
     settledCash := settledCash s; availableCash := f (availableCash s);
     emitted := emitted s |}.

Definition emit (e : effect) (s : state) : state :=
  {| this_pcode := this_pcode s; bids := bids s; asks := asks s;
     trades := trades s; settledAssetsDict := settledAssetsDict s;
     availableAssetsDict := availableAssetsDict s;
     settledCash := settledCash s; availableCash := availableCash s;
     emitted := emitted s ++ [e] |}.

(** ** Loops and splices

    [for (; i < xs.length; i++) if (stop(xs[i])) break;] leaves in [i] the
    index of the first element that stops the loop, or [xs.length].  The
    loop variable is a JS value: [let i = 0] starts it at [Some 0], a bare
    [let i;] leaves it [undefined] ([None]), and [undefined < n] is false,
    so the body never runs and [i] stays [undefined]. *)

Fixpoint scan {A} (stop : A -> bool) (xs : list A) (i : nat) : nat :=
  match xs with
  | [] => i
  | x :: rest => if stop x then i else scan stop rest (S i)
  end.

Definition for_index {A} (init : option nat) (stop : A -> bool)
    (xs : list A) : option nat :=
  match init with
  | None => None
  | Some k => Some (scan stop (drop k xs) k)
  end.

(** [this.splice(name, start, 0, item)]: [Array.prototype.splice] turns an
    [undefined] start into 0 and clamps a start beyond the end to the
    length. *)
Definition splice_insert {A} (start : option nat) (item : A)
    (xs : list A) : list A :=
  let k := default 0%nat start in
  take k xs ++ item :: drop k xs.

(** [this.splice(name, i, 1)]. *)
Definition splice_delete {A} (i : nat) (xs : list A) : list A :=
  take i xs ++ drop (S i) xs.

(** ** Methods of [TraderState] *)

(** [_update_subproperty(property, subproperty, amount)], one instance per
    dictionary: [old = this.get([property, subproperty])], then
    [this.set([property, subproperty], old + amount)].

    [this.get] and [this.set] take the pair as a path: Polymer splits it at
    every ['.'] and reads it segment by segment, through the prototype chain
    of the dictionary.  For a [subproperty] without a ['.'] that has an entry
    of its own, or that is not the name of a property of [Object.prototype],
    that is the lookup and the store below.  Other names (see [has_dot] and
    [plain_name]) are outside this rendering, and the properties that depend
    on what happens to them say so. *)
Definition _update_subproperty (subproperty : string) (amount : number)
    (d : gmap string number) : gmap string number :=
  let old := d !! subproperty in
  <[subproperty := js_add_undef old amount]> d.

Definition _compare_orders (o1 o2 : order) : Q :=
  if price o1 =? price o2
  then (- (timestamp o1 - timestamp o2))%Q
  else inject_Z (price o1 - price o2).

Definition _insert_bid (order : order) (s : state) : state :=
  let i := for_index (Some 0%nat)
             (fun b => Qltb (_compare_orders b order) 0) (bids s) in
  let s := set_bids (splice_insert i order) s in
  if String.eqb (pcode order) (this_pcode s)
  then set_availableCash
         (fun c => js_sub c (Num (price order * volume order))) s
  else s.

Definition _insert_ask (order : order) (s : state) : state :=
  let i := for_index (Some 0%nat)
             (fun a => Qltb 0 (_compare_orders a order)) (asks s) in
  let s := set_asks (splice_insert i order) s in
  if String.eqb (pcode order) (this_pcode s)
  then set_availableAssetsDict
         (_update_subproperty (asset_name order) (Num (- volume order))) s
  else s.

Definition _handle_confirm_enter (msg : order) (s : state) : state :=
  let order := msg in
  let s := if is_bid order then _insert_bid order s else _insert_ask order s in
  emit (Dispatch "confirm-order-enter" (POrder order)) s.

Definition _update_holdings (price volume : Z) (is_bid : bool)
    (asset_name : string) (s : state) : state :=
  if is_bid then
    let s := set_availableAssetsDict
               (_update_subproperty asset_name (Num volume)) s in
    let s := set_settledAssetsDict
               (_update_subproperty asset_name (Num volume)) s in
    let s := set_availableCash
               (fun c => js_sub c (Num (price * volume))) s in
    set_settledCash (fun c => js_sub c (Num (price * volume))) s
  else
    let s := set_availableAssetsDict
               (_update_subproperty asset_name (Num (- volume))) s in
    let s := set_settledAssetsDict
               (_update_subproperty asset_name (Num (- volume))) s in
    let s := set_availableCash
               (fun c => js_add c (Num (price * volume))) s in
    set_settledCash (fun c => js_add c (Num (price * volume))) s.

Definition _remove_order (order : order) (s : state) : state :=
  let order_store_name := if is_bid order then "bids" else "asks" in
  let order_store := if is_bid order then bids s else asks s in
  let i := scan (fun o => order_id o =? order_id order) order_store 0 in
  if (length order_store <=? i)%nat
  then emit (Warn (order_id order) order_store_name) s
  else if is_bid order
       then set_bids (splice_delete i) s
       else set_asks (splice_delete i) s.

Definition _handle_confirm_cancel (msg : order) (s : state) : state :=
  let order := msg in
  let s := _remove_order order s in
  let s :=
    if String.eqb (pcode order) (this_pcode s) then
      if is_bid order
      then set_availableCash
             (fun c => js_add c (Num (price order * volume order))) s
      else set_availableAssetsDict
             (_update_subproperty (asset_name order) (Num (volume order))) s
    else s in
  emit (Dispatch "confirm-order-cancel" (POrder order)) s.

(** The body of [for (const making_order of msg.making_orders)]. *)
Definition trade_leg (msg : trade) (s : state) (making_order : order)
    : state :=
  let s :=
    if String.eqb (pcode making_order) (this_pcode s)
    then _update_holdings (price making_order) (traded_volume making_order)
           (is_bid making_order) (asset_name making_order) s
    else s in
  let s :=
    if String.eqb (pcode (taking_order msg)) (this_pcode s)
    then _update_holdings (price making_order) (traded_volume making_order)
           (is_bid (taking_order msg)) (asset_name (taking_order msg)) s
    else s in
  _remove_order making_order s.

Definition _handle_confirm_trade (msg : trade) (s : state) : state :=
  let s := fold_left (trade_leg msg) (making_orders msg) s in
  let trade :=
    {| trade_timestamp := trade_timestamp msg;
       trade_asset_name := trade_asset_name msg;
       taking_order := taking_order msg;
       making_orders := making_orders msg |} in
  (* [let i;]: the index starts out undefined *)
  let i := for_index None
             (fun t => Qltb (trade_timestamp msg) (trade_timestamp t))
             (trades s) in
  let s := set_trades (splice_insert i trade) s in
  emit (Dispatch "confirm-trade" (PTrade trade)) s.

Definition _handle_error (msg : error_payload) (s : state) : state :=
  if String.eqb (error_pcode msg) (this_pcode s)
  then emit (DispatchError (error_message msg)) s
  else s.

(** ** Dispatch

    [message_handlers] is an object literal with four own properties.
    [this.message_handlers[msg.type]] is an ordinary property read, so a
    name that is not an own property is looked up on [Object.prototype]. *)

Inductive handler :=
| Handle_confirm_enter
| Handle_confirm_trade
| Handle_confirm_cancel
| Handle_error
| Inherited (name : string).

Definition Object_prototype : list string :=
  [ "constructor"; "hasOwnProperty"; "isPrototypeOf";
    "propertyIsEnumerable"; "toLocaleString"; "toString"; "valueOf";
    "__proto__"; "__defineGetter__"; "__defineSetter__";
    "__lookupGetter__"; "__lookupSetter__" ].

Definition message_handlers (name : string) : option handler :=
  if String.eqb name "confirm_enter" then Some Handle_confirm_enter
  else if String.eqb name "confirm_trade" then Some Handle_confirm_trade
  else if String.eqb name "confirm_cancel" then Some Handle_confirm_cancel
  else if String.eqb name "error" then Some Handle_error
  else if bool_decide (name ∈ Object_prototype) then Some (Inherited name)
  else None.

(** How a call ends: it returns, or it throws; either way [this] is left in
    some state. *)
Inductive outcome :=
| Returned (s : state)
| Threw (what : string) (s : state).

Definition state_of (r : outcome) : state :=
  match r with
  | Returned s => s
  | Threw _ s => s
  end.

(** [handler.call(this, payload)] for a value found on [Object.prototype]:
    [__proto__] is not a function and the two [__define*__] methods reject
    the missing second argument, so these three throw a [TypeError]; the
    others are methods that return without touching the element. *)
Definition call_inherited (name : string) (s : state) : outcome :=
  if bool_decide (name ∈ ["__proto__"; "__defineGetter__";
                           "__defineSetter__"])
  then Threw "TypeError" s
  else Returned s.

(** [handler.call(this, msg.payload)].  "the type determines the structure
    of the payload": a payload of another shape than the handler's is
    outside the messaging spec and is given no behaviour ([None]). *)
Definition call (h : handler) (p : payload) (s : state) : option outcome :=
  match h, p with
  | Handle_confirm_enter, POrder o => Some (Returned (_handle_confirm_enter o s))
  | Handle_confirm_trade, PTrade t => Some (Returned (_handle_confirm_trade t s))
  | Handle_confirm_cancel, POrder o => Some (Returned (_handle_confirm_cancel o s))
  | Handle_error, PError e => Some (Returned (_handle_error e s))
  | Inherited name, _ => Some (call_inherited name s)
  | _, _ => None
  end.

Definition _on_message (msg : message) (s : state) : option outcome :=
  match message_handlers (type msg) with
  | None => Some (Threw ("error: invalid message type: " ++ type msg) s)
  | Some handler => call handler (msg_payload msg) s
  end.

(** A message whose payload has the shape its type announces. *)
Definition well_formed (msg : message) : bool :=
  match message_handlers (type msg), msg_payload msg with
  | Some Handle_confirm_enter, POrder _ => true
  | Some Handle_confirm_trade, PTrade _ => true
  | Some Handle_confirm_cancel, POrder _ => true
  | Some Handle_error, PError _ => true
  | Some (Inherited _), _ => true
  | None, _ => true
  | _, _ => false
  end.

(** The events of a session, handled one at a time in arrival order; an
    exception ends the handling of its own event only. *)
Fixpoint run (msgs : list message) (s : state) : option state :=
  match msgs with
  | [] => Some s
  | msg :: rest =>
      match _on_message msg s with
      | Some r => run rest (state_of r)
      | None => None
      end
  end.

(** ** The orders the books are meant to be kept in *)

(** [a] may stand before [b] in the bid book: higher price first, and at
    equal price the earlier timestamp first. *)
Definition bid_before (a b : order) : Prop :=
  price b < price a \/ (price a = price b /\ (timestamp a <= timestamp b)%Q).

(** [a] may stand before [b] in the ask book: lower price first, and at
    equal price the earlier timestamp first. *)
Definition ask_before (a b : order) : Prop :=
  price a < price b \/ (price a = price b /\ (timestamp a <= timestamp b)%Q).

(** What [_insert_ask] keeps instead: lower price first, and at equal price
    the later timestamp first. *)
Definition ask_before_latest_first (a b : order) : Prop :=
  price a < price b \/ (price a = price b /\ (timestamp b <= timestamp a)%Q).

Definition trade_before (a b : trade) : Prop :=
  (trade_timestamp a <= trade_timestamp b)%Q.

(** A sequence of [confirm_enter] payloads handled in arrival order. *)
Definition enter_all (orders : list order) (s : state) : state :=
  fold_left (fun s o => _handle_confirm_enter o s) orders s.

(** The list that scanning with [stop] from index 0 and splicing [item] in
    builds, by recursion on the list (see [splice_insert_scan]). *)
Fixpoint placed {A} (stop : A -> bool) (item : A) (xs : list A) : list A :=
  match xs with
  | [] => [item]
  | x :: rest =>
      if stop x then item :: x :: rest else x :: placed stop item rest
  end.

(** ** Concrete inputs used in the examples below *)

(** A viewer ["P1"] holding 100 in cash and 10 units of asset ["A"], with
    empty books and no trades. *)
Definition fresh_state : state :=
  {| this_pcode := "P1"; bids := []; asks := []; trades := [];
     settledAssetsDict := {[ "A" := Num 10 ]};
     availableAssetsDict := {[ "A" := Num 10 ]};
     settledCash := Num 100; availableCash := Num 100; emitted := [] |}.

(** An order for asset ["A"]. *)
Definition mk_order (id : Z) (owner : string) (bid : bool) (p v : Z)
    (ts : Q) (tv : Z) : order :=
  {| timestamp := ts; price := p; volume := v; is_bid := bid;
     pcode := owner; traded_volume := tv; order_id := id;
     asset_name := "A" |}.

(** The three bids of the scenario: A(price=10, ts=1.0), B(price=12,
    ts=2.0), C(price=10, ts=0.5), entered by another participant. *)
Definition bid_A : order := mk_order 1 "P2" true 10 1 1 0.
Definition bid_B : order := mk_order 2 "P2" true 12 1 2 0.
Definition bid_C : order := mk_order 3 "P2" true 10 1 (1 # 2) 0.

(** Two asks at the same price: X entered at ts=1.0, then Y at ts=2.0. *)
Definition ask_X : order := mk_order 4 "P2" false 5 1 1 0.
Definition ask_Y : order := mk_order 5 "P2" false 5 1 2 0.

(** Two trades without making orders, at ts=1.0 and ts=2.0. *)
Definition trade_at (ts : Q) : trade :=
  {| trade_timestamp := ts; trade_asset_name := "A";
     taking_order := mk_order 9 "P2" true 5 1 ts 1; making_orders := [] |}.

(** ** The holdings ledger as the design describes it

    These definitions follow the description of [on_trade_leg] and of the
    trade event, not the code; they are what the handlers are compared
    with. *)

Record holdings := {
  available_cash : number;
  settled_cash : number;
  available_assets : gmap string number;
  settled_assets : gmap string number;
}.

Definition holdings_of (s : state) : holdings :=
  {| available_cash := availableCash s; settled_cash := settledCash s;
     available_assets := availableAssetsDict s;
     settled_assets := settledAssetsDict s |}.

(** [m[key] += amount] and [m[key] -= amount] on a mapping. *)
Definition entry_add (key : string) (amount : Z)
    (m : gmap string number) : gmap string number :=
  <[key := js_add_undef (m !! key) (Num amount)]> m.

Definition entry_sub (key : string) (amount : Z)
    (m : gmap string number) : gmap string number :=
  <[key := match m !! key with
           | Some x => js_sub x (Num amount)
           | None => NaN
           end]> m.

(** One leg of a trade: execution price, traded volume, side, asset. *)
Record leg := {
  leg_price : Z;
  leg_volume : Z;
  leg_is_bid : bool;
  leg_asset : string;
}.

(** "if [is_bid], [available_assets[asset_name] += traded_volume],
    [settled_assets[asset_name] += traded_volume], [available_cash -=
    price*traded_volume], [settled_cash -= price*traded_volume]; the
    symmetric inverse if not [is_bid]". *)
Definition on_trade_leg (h : holdings) (l : leg) : holdings :=
  let amount := Num (leg_price l * leg_volume l) in
  if leg_is_bid l then
    {| available_cash := js_sub (available_cash h) amount;
       settled_cash := js_sub (settled_cash h) amount;
       available_assets :=
         entry_add (leg_asset l) (leg_volume l) (available_assets h);
       settled_assets :=
         entry_add (leg_asset l) (leg_volume l) (settled_assets h) |}
  else
    {| available_cash := js_add (available_cash h) amount;
       settled_cash := js_add (settled_cash h) amount;
       available_assets :=
         entry_sub (leg_asset l) (leg_volume l) (available_assets h);
       settled_assets :=
         entry_sub (leg_asset l) (leg_volume l) (settled_assets h) |}.

(** The leg of a making order taken on the maker's own side. *)
Definition maker_leg (making_order : order) : leg :=
  {| leg_price := price making_order;
     leg_volume := traded_volume making_order;
     leg_is_bid := is_bid making_order;
     leg_asset := asset_name making_order |}.

(** The leg of a making order taken on the taker's side: the maker's price
    and traded volume, the taker's side and asset. *)
Definition taker_leg (taking_order making_order : order) : leg :=
  {| leg_price := price making_order;
     leg_volume := traded_volume making_order;
     leg_is_bid := is_bid taking_order;
     leg_asset := asset_name taking_order |}.

(** The legs a viewer who is the taker of [msg] is charged with: for each
    making order in sequence, the maker's leg first when the viewer owns that
    making order too, then the taker's leg. *)
Definition taker_legs (viewer : string) (msg : trade) : list leg :=
  flat_map
    (fun making_order =>
       (if String.eqb (pcode making_order) viewer
        then [maker_leg making_order] else [])
       ++ [taker_leg (taking_order msg) making_order])
    (making_orders msg).

(** A trade taken by the viewer ["P1"] (a bid) against two making orders:
    one of participant ["P2"] at price 5 and one of the viewer's own at
    price 6, each filled for less than its resting volume. *)
Definition maker_other : order := mk_order 7 "P2" false 5 4 1 2.
Definition maker_own : order := mk_order 8 "P1" false 6 4 2 1.
Definition taken_trade : trade :=
  {| trade_timestamp := 3; trade_asset_name := "A";
     taking_order := mk_order 9 "P1" true 6 3 3 3;
     making_orders := [maker_other; maker_own] |}.

(** [fresh_state] with the two making orders resting in the ask book. *)
Definition resting_state : state :=
  set_asks (fun _ => [maker_other; maker_own]) fresh_state.

(** The book that [_remove_order] looks into for [o]. *)
Definition selected_book (o : order) (s : state) : list order :=
  if is_bid o then bids s else asks s.

(** The list without the first element that [stop] accepts, by recursion on
    the list: what scanning from index 0 and splicing one element out
    builds, and the list itself when nothing is accepted. *)
Fixpoint without_first {A} (stop : A -> bool) (xs : list A) : list A :=
  match xs with
  | [] => []
  | x :: rest => if stop x then rest else x :: without_first stop rest
  end.

(** A bid of the viewer that rests in no book. *)
Definition stray_bid : order := mk_order 11 "P1" true 5 10 1 0.

(** An ask of the viewer for an asset, and a viewer whose
    [availableAssetsDict] has no entry for it. *)
Definition own_ask : order := mk_order 12 "P1" false 5 3 1 0.
Definition state_without_asset : state :=
  set_availableAssetsDict (fun _ => ∅) fresh_state.

(** ** Sessions *)

(** The order ids resident in the two books, bids first. *)
Definition resident_ids (s : state) : list Z :=
  order_id <$> (bids s ++ asks s).

(** The precondition of order entry along a session: whenever a
    [confirm_enter] is about to be handled, the id of its order is resident
    in neither book. *)
Fixpoint enters_fresh (msgs : list message) (s : state) : bool :=
  match msgs with
  | [] => true
  | msg :: rest =>
      (if String.eqb (type msg) "confirm_enter"
       then match msg_payload msg with
            | POrder o => bool_decide (order_id o ∉ resident_ids s)
            | _ => true
            end
       else true)
      && match _on_message msg s with
         | Some r => enters_fresh rest (state_of r)
         | None => true
         end
  end.

(** A session: two entries, a cancel, a message of an unknown type and an
    error addressed to the viewer. *)
Definition session : list message :=
  [ {| type := "confirm_enter"; msg_payload := POrder bid_A |};
    {| type := "confirm_enter"; msg_payload := POrder ask_X |};
    {| type := "confirm_cancel"; msg_payload := POrder bid_A |};
    {| type := "unknown_type"; msg_payload := POrder bid_B |};
    {| type := "error";
       msg_payload := PError {| error_pcode := "P1";
                                error_message := "rejected" |} |} ].

(** ** Further vocabulary for the properties of the handlers *)

(** A sequence of [confirm_trade] payloads handled in arrival order. *)
Definition trade_all (msgs : list trade) (s : state) : state :=
  fold_left (fun s t => _handle_confirm_trade t s) msgs s.

(** Later timestamp first. *)
Definition trade_after (a b : trade) : Prop :=
  (trade_timestamp b <= trade_timestamp a)%Q.

(** The legs of a trade that concern a viewer, taker or not: for each making
    order in sequence, the maker's leg when the viewer owns the making order,
    then the taker's leg when the viewer owns the taking order. *)
Definition viewer_legs (viewer : string) (msg : trade) : list leg :=
  flat_map
    (fun making_order =>
       (if String.eqb (pcode making_order) viewer
        then [maker_leg making_order] else [])
       ++ (if String.eqb (pcode (taking_order msg)) viewer
           then [taker_leg (taking_order msg) making_order] else []))
    (making_orders msg).

(** The order each book is kept in: bids by descending price and, at equal
    price, earliest first; asks by ascending price and, at equal price,
    latest first. *)
Definition books_in_order (s : state) : Prop :=
  StronglySorted bid_before (bids s) /\
  StronglySorted ask_before_latest_first (asks s).

(** Every order rests on the side its [is_bid] flag names. *)
Definition sides_respected (s : state) : Prop :=
  Forall (fun o => is_bid o = true) (bids s) /\
  Forall (fun o => is_bid o = false) (asks s).

(** ** The countdown ([_start])

    [timeRemaining] is a number of seconds or [null] ([None]); the seconds
    are taken to be whole.  [_start] runs once, on period start.  The
    callback [tick] reschedules itself with [setTimeout]; [pending] says
    whether a timeout is waiting to fire.  The delays are left out: only the
    values that [timeRemaining] goes through are modelled. *)

Record timer := {
  timeRemaining : option Z;
  pending : bool;
}.

(** [!this.timeRemaining]: [null] and 0 are falsy. *)
Definition not_timeRemaining (t : timer) : bool :=
  match timeRemaining t with
  | None => true
  | Some z => z =? 0
  end.

(** [const tick = () => {...}]; [null <= 0] is true. *)
Definition tick (t : timer) : timer :=
  match timeRemaining t with
  | None => {| timeRemaining := None; pending := false |}
  | Some z =>
      if z <=? 0
      then {| timeRemaining := Some z; pending := false |}
      else {| timeRemaining := Some (z - 1); pending := true |}
  end.

Definition _start (t : timer) : timer :=
  if not_timeRemaining t then t
  else {| timeRemaining := timeRemaining t; pending := true |}.

(** The event loop firing the waiting timeout, at most [n] times. *)
Fixpoint fire (n : nat) (t : timer) : timer :=
  match n with
  | O => t
  | S n' => if pending t then fire n' (tick t) else t
  end.

(** [taken_trade] with its making orders listed the other way round. *)
Definition taken_trade_swapped : trade :=
  {| trade_timestamp := 3; trade_asset_name := "A";
     taking_order := mk_order 9 "P1" true 6 3 3 3;
     making_orders := [maker_own; maker_other] |}.

(** A bid of the viewer, and the trade in which another participant's ask
    fills it completely. *)
Definition own_bid : order := mk_order 13 "P1" true 5 4 1 0.
Definition own_bid_filled : trade :=
  {| trade_timestamp := 2; trade_asset_name := "A";
     taking_order := mk_order 14 "P2" false 5 4 2 4;
     making_orders := [mk_order 13 "P1" true 5 4 1 4] |}.

(** A trade of the viewer with itself: its buy order takes its own ask. *)
Definition self_trade : trade :=
  {| trade_timestamp := 3; trade_asset_name := "A";
     taking_order := mk_order 9 "P1" true 6 3 3 1;
     making_orders := [maker_own] |}.

(** ** What no handler undoes in the holdings *)

(** A number that has become [NaN] is [NaN] afterwards. *)
Definition number_kept (x y : number) : Prop := x = NaN -> y = NaN.

(** Every asset that has an entry has one afterwards, and an entry that has
    become [NaN] is [NaN] afterwards. *)
Definition entries_kept (d d' : gmap string number) : Prop :=
  forall a, (is_Some (d !! a) -> is_Some (d' !! a)) /\
            (d !! a = Some NaN -> d' !! a = Some NaN).

Definition holdings_kept (h h' : holdings) : Prop :=
  number_kept (available_cash h) (available_cash h') /\
  number_kept (settled_cash h) (settled_cash h') /\
  entries_kept (available_assets h) (available_assets h') /\
  entries_kept (settled_assets h) (settled_assets h').

(** The warning [_remove_order] writes when it does not find [o]. *)
Definition not_found_warning (o : order) : effect :=
  Warn (order_id o) (if is_bid o then "bids" else "asks").

(** The replica of participant ["P2"], the owner of [maker_other], with the
    same books as [resting_state], and a trade in which the viewer of
    [resting_state] buys from [maker_other] alone. *)
Definition resting_state_of_P2 : state :=
  {| this_pcode := "P2"; bids := []; asks := [maker_other; maker_own];
     trades := [];
     settledAssetsDict := {[ "A" := Num 7 ]};
     availableAssetsDict := {[ "A" := Num 3 ]};
     settledCash := Num 40; availableCash := Num 40; emitted := [] |}.
Definition bought_from_P2 : trade :=
  {| trade_timestamp := 3; trade_asset_name := "A";
     taking_order := mk_order 9 "P1" true 6 3 3 2;
     making_orders := [maker_other] |}.

(** ** Asset names and amounts for which the holdings are exact *)

(** Whether a name contains a ['.'], at which Polymer would split it. *)
Fixpoint has_dot (a : string) : bool :=
  match a with
  | EmptyString => false
  | String c rest => Ascii.eqb c "."%char || has_dot rest
  end.

(** A name that is one path segment and is not found on
    [Object.prototype]: reading it from a dictionary that has no entry for
    it gives [undefined]. *)
Definition plain_name (a : string) : bool :=
  negb (has_dot a) && negb (bool_decide (a ∈ Object_prototype)).

(** [x], [delta] and [x + delta] are safe integers: the double sum is the
    exact sum. *)
Definition exact_sum (x delta : Z) : Prop :=
  safe x /\ safe delta /\ safe (x + delta).

(** Adding [delta] to [c], and taking it off again, is done without
    rounding: trivially so for [NaN], and for an infinity as long as [delta]
    is finite. *)
Definition exact_step (c : number) (delta : Z) : Prop :=
  match c with
  | Num x => exact_sum x delta
  | Infinity _ => safe delta
  | NaN => True
  end.

(** An own bid worth 2^60, and the price and volume 94906267 whose product
    is odd and above 2^53. *)
Definition huge_bid : order := mk_order 15 "P1" true (2 ^ 30) (2 ^ 30) 1 0.
Definition odd_factor : Z := 94906267.

(** ** Holdings with room for the legs of a trade

    The vocabulary for saying that a sequence of legs is applied without any
    rounding, and what it then amounts to. *)

(** [c] moved by [delta] in exact arithmetic; an infinity and [NaN] stay. *)
Definition shifted (c : number) (delta : Z) : number :=
  match c with
  | Num x => Num (x + delta)
  | _ => c
  end.

(** What a leg adds to the cash and to the entry of its asset. *)
Definition cash_delta (l : leg) : Z :=
  if leg_is_bid l then - (leg_price l * leg_volume l)
  else leg_price l * leg_volume l.

Definition asset_delta (l : leg) : Z :=
  if leg_is_bid l then leg_volume l else - leg_volume l.

(** The entry of [a] moved by [delta] in exact arithmetic; an entry that
    was missing is created as [NaN]. *)
Definition shift_entry (a : string) (delta : Z)
    (d : gmap string number) : gmap string number :=
  <[a := match d !! a with
         | Some e => shifted e delta
         | None => NaN
         end]> d.

(** [on_trade_leg] in exact arithmetic. *)
Definition exact_leg (h : holdings) (l : leg) : holdings :=
  {| available_cash := shifted (available_cash h) (cash_delta l);
     settled_cash := shifted (settled_cash h) (cash_delta l);
     available_assets :=
       shift_entry (leg_asset l) (asset_delta l) (available_assets h);
     settled_assets :=
       shift_entry (leg_asset l) (asset_delta l) (settled_assets h) |}.

(** The sum of the magnitudes of the cash amounts of the legs, and of their
    volumes. *)
Fixpoint cash_weight (ls : list leg) : Z :=
  match ls with
  | [] => 0
  | l :: rest => Z.abs (leg_price l * leg_volume l) + cash_weight rest
  end.

Fixpoint volume_weight (ls : list leg) : Z :=
  match ls with
  | [] => 0
  | l :: rest => Z.abs (leg_volume l) + volume_weight rest
  end.

(** A number can be moved by amounts of total magnitude [w] without leaving
    the safe integers. *)
Definition room (c : number) (w : Z) : Prop :=
  match c with
  | Num x => Z.abs x + w <= 2 ^ 53
  | Infinity _ => w <= 2 ^ 53
  | NaN => True
  end.

Definition entry_room (e : option number) (w : Z) : Prop :=
  match e with
  | Some c => room c w
  | None => True
  end.

(** The holdings have room for the legs [ls]: the two cash values for the
    cash amounts, every entry of the two dictionaries for the volumes. *)
Definition within (h : holdings) (ls : list leg) : Prop :=
  room (available_cash h) (cash_weight ls) /\
  room (settled_cash h) (cash_weight ls) /\
  (forall a, entry_room (available_assets h !! a) (volume_weight ls)) /\
  (forall a, entry_room (settled_assets h !! a) (volume_weight ls)).

(** The legs name their assets by plain names, for which
    [_update_subproperty] is the lookup and the store of [this.get] and
    [this.set]. *)
Definition plain_legs (ls : list leg) : Prop :=
  Forall (fun l => plain_name (leg_asset l) = true) ls.

(** ** A busier session

    Three bids and two asks of participant ["P2"] come to rest, the viewer
    ["P1"] enters an ask and a bid of its own, a trade taken by ["P2"] fills
    ask X and two units of the viewer's ask, bid B and the viewer's bid are
    cancelled, and a trade without making orders is reported. *)
Definition busy_trade : trade :=
  {| trade_timestamp := 4; trade_asset_name := "A";
     taking_order := mk_order 16 "P2" true 5 3 4 3;
     making_orders := [ mk_order 4 "P2" false 5 1 1 1;
                        mk_order 12 "P1" false 5 3 1 2 ] |}.

Definition busy_session : list message :=
  [ {| type := "confirm_enter"; msg_payload := POrder bid_A |};
    {| type := "confirm_enter"; msg_payload := POrder bid_B |};
    {| type := "confirm_enter"; msg_payload := POrder bid_C |};
    {| type := "confirm_enter"; msg_payload := POrder ask_X |};
    {| type := "confirm_enter"; msg_payload := POrder ask_Y |};
    {| type := "confirm_enter"; msg_payload := POrder own_ask |};
    {| type := "confirm_enter"; msg_payload := POrder own_bid |};
    {| type := "confirm_trade"; msg_payload := PTrade busy_trade |};
    {| type := "confirm_cancel"; msg_payload := POrder bid_B |};
    {| type := "confirm_cancel"; msg_payload := POrder own_bid |};
    {| type := "confirm_trade"; msg_payload := PTrade (trade_at 5) |} ].

(** [fresh_state] with one trade already in the list. *)
Definition traded_state : state :=
  set_trades (fun _ => [trade_at 1]) fresh_state.

(** [fresh_state] as an update of [availableAssetsDict] for ["A"] leaves it
    when ["A"] had no entry: the entry is [NaN]. *)
Definition state_with_NaN : state :=
  set_availableAssetsDict (fun _ => {[ "A" := NaN ]}) fresh_state.

(** * Properties *)

(** ** Comparisons of rationals as booleans *)

Lemma Qltb_lt x y : Qltb x y = true <-> (x < y)%Q.
Proof.
  unfold Qltb. rewrite negb_true_iff. split.
  - intros H. apply Qnot_le_lt. intros Hle.
    apply Qle_bool_iff in Hle. congruence.
  - intros H. destruct (Qle_bool y x) eqn:E; [|reflexivity].
    apply Qle_bool_iff in E. exfalso. exact (Qlt_not_le _ _ H E).
Qed.

(** ** Doubles that hold integers *)

Lemma round_to_double_safe (z : Z) : safe z -> round_to_double z = z.
Proof.
  unfold safe, round_to_double. intros H. cbv zeta.
  destruct (Z.leb_spec (Z.abs z) (2 ^ 53)) as [_|H']; [reflexivity|lia].
Qed.

Lemma safe_below_overflow (z : Z) : safe z -> Z.abs z < 2 ^ 1024.
Proof.
  unfold safe. intros H.
  assert (2 ^ 53 < 2 ^ 1024) by (apply Z.pow_lt_mono_r; lia).
  lia.
Qed.

Lemma double_of_safe (z : Z) : safe z -> double_of z = Num z.
Proof.
  intros H. unfold double_of. cbv zeta.
  rewrite (round_to_double_safe z H).
  pose proof (safe_below_overflow z H) as Hlt.
  destruct (Z.leb_spec (2 ^ 1024) (Z.abs z)) as [H'|_]; [lia|reflexivity].
Qed.

(** Within the safe integers the sum of two doubles is the exact sum. *)
Lemma js_add_exact (x y : Z) :
  safe x -> safe y -> safe (x + y) -> js_add (Num x) (Num y) = Num (x + y).
Proof.
  intros Hx Hy Hxy. unfold js_add, normal.
  rewrite (double_of_safe x Hx), (double_of_safe y Hy).
  apply double_of_safe, Hxy.
Qed.

Lemma safe_opp (z : Z) : safe z -> safe (- z).
Proof. unfold safe. rewrite Z.abs_opp. auto. Qed.

(** Within the safe integers the difference is the exact difference. *)
Lemma js_sub_exact (x y : Z) :
  safe x -> safe y -> safe (x - y) -> js_sub (Num x) (Num y) = Num (x - y).
Proof.
  intros Hx Hy Hxy. unfold js_sub, js_neg.
  apply js_add_exact; [exact Hx|apply safe_opp, Hy|exact Hxy].
Qed.

(** An infinity absorbs a safe integer. *)
Lemma js_add_Infinity_safe (n : bool) (y : Z) :
  safe y -> js_add (Infinity n) (Num y) = Infinity n.
Proof.
  intros Hy. unfold js_add, normal. rewrite (double_of_safe y Hy).
  reflexivity.
Qed.

(** ** The scan-and-splice insertion *)

Section ScanInsert.
Context {A : Type} (stop : A -> bool) (item : A).

Lemma scan_S (xs : list A) (i : nat) :
  scan stop xs (S i) = S (scan stop xs i).
Proof.
  revert i. induction xs as [|x rest IH]; intros i; simpl; [reflexivity|].
  destruct (stop x); [reflexivity|apply IH].
Qed.


Lemma splice_insert_scan (xs : list A) :
  splice_insert (for_index (Some 0%nat) stop xs) item xs = placed stop item xs.
Proof.
  unfold for_index, splice_insert. simpl.
  induction xs as [|x rest IH]; simpl; [reflexivity|].
  destruct (stop x); simpl; [reflexivity|].
  rewrite scan_S. simpl. f_equal. exact IH.
Qed.

Lemma placed_elem (xs : list A) (y : A) :
  y ∈ placed stop item xs <-> y = item \/ y ∈ xs.
Proof.
  induction xs as [|x rest IH]; simpl.
  - rewrite list_elem_of_singleton, elem_of_nil. tauto.
  - destruct (stop x).
    + rewrite elem_of_cons. tauto.
    + rewrite !elem_of_cons, IH. tauto.
Qed.

Context (R : A -> A -> Prop).
Hypothesis R_trans : forall a b c, R a b -> R b c -> R a c.
Hypothesis passed_before : forall x, stop x = false -> R x item.
Hypothesis stopped_after : forall x, stop x = true -> R item x.

Lemma placed_sorted (xs : list A) :
  StronglySorted R xs -> StronglySorted R (placed stop item xs).
Proof.
  induction 1 as [|x rest Hs IH Hx]; simpl.
  - repeat constructor.
  - destruct (stop x) eqn:E.
    + constructor; [constructor; assumption|].
      constructor; [auto|].
      eapply Forall_impl; [exact Hx|].
      intros y Hy. eapply R_trans; [|exact Hy]. auto.
    + constructor; [exact IH|].
      apply Forall_forall. intros y Hy. apply placed_elem in Hy.
      destruct Hy as [->|Hy]; [auto|].
      rewrite Forall_forall in Hx. auto.
Qed.
End ScanInsert.

(** ** The comparator *)

Lemma Qltb_inject_neg (z : Z) : Qltb (inject_Z z) 0 = true <-> z < 0.
Proof.
  rewrite Qltb_lt. change 0%Q with (inject_Z 0).
  rewrite <- Zlt_Qlt. reflexivity.
Qed.

Lemma Qltb_inject_pos (z : Z) : Qltb 0 (inject_Z z) = true <-> 0 < z.
Proof.
  rewrite Qltb_lt. change 0%Q with (inject_Z 0).
  rewrite <- Zlt_Qlt. reflexivity.
Qed.

(** [_compare_orders(o1, o2) < 0] spelled out. *)
Lemma compare_orders_neg (o1 o2 : order) :
  Qltb (_compare_orders o1 o2) 0 = true <->
  price o1 < price o2 \/
  (price o1 = price o2 /\ (timestamp o2 < timestamp o1)%Q).
Proof.
  unfold _compare_orders. destruct (Z.eqb_spec (price o1) (price o2)) as [E|E].
  - rewrite Qltb_lt. split.
    + intros H. right. split; [exact E|lra].
    + intros [H|[_ H]]; [lia|lra].
  - rewrite Qltb_inject_neg. split.
    + intros H. left. lia.
    + intros [H|[H _]]; [lia|contradiction].
Qed.

(** [_compare_orders(o1, o2) > 0] spelled out. *)
Lemma compare_orders_pos (o1 o2 : order) :
  Qltb 0 (_compare_orders o1 o2) = true <->
  price o2 < price o1 \/
  (price o1 = price o2 /\ (timestamp o1 < timestamp o2)%Q).
Proof.
  unfold _compare_orders. destruct (Z.eqb_spec (price o1) (price o2)) as [E|E].
  - rewrite Qltb_lt. split.
    + intros H. right. split; [exact E|lra].
    + intros [H|[_ H]]; [lia|lra].
  - rewrite Qltb_inject_pos. split.
    + intros H. left. lia.
    + intros [H|[H _]]; [lia|contradiction].
Qed.

Lemma bid_before_trans (a b c : order) :
  bid_before a b -> bid_before b c -> bid_before a c.
Proof.
  unfold bid_before. intros [H1|[H1 T1]] [H2|[H2 T2]].
  - left. lia.
  - left. lia.
  - left. lia.
  - right. split; [congruence|]. eapply Qle_trans; eassumption.
Qed.

Lemma ask_before_latest_first_trans (a b c : order) :
  ask_before_latest_first a b -> ask_before_latest_first b c ->
  ask_before_latest_first a c.
Proof.
  unfold ask_before_latest_first. intros [H1|[H1 T1]] [H2|[H2 T2]].
  - left. lia.
  - left. lia.
  - left. lia.
  - right. split; [congruence|]. eapply Qle_trans; eassumption.
Qed.

Lemma bid_scan_passed (o b : order) :
  Qltb (_compare_orders b o) 0 = false -> bid_before b o.
Proof.
  intros H. unfold bid_before.
  destruct (Z.lt_trichotomy (price b) (price o)) as [L|[E|G]].
  - assert (Qltb (_compare_orders b o) 0 = true) as C
      by (apply compare_orders_neg; left; exact L).
    congruence.
  - right. split; [exact E|].
    apply Qnot_lt_le. intros T.
    assert (Qltb (_compare_orders b o) 0 = true) as C
      by (apply compare_orders_neg; right; split; assumption).
    congruence.
  - left. exact G.
Qed.

Lemma bid_scan_stopped (o b : order) :
  Qltb (_compare_orders b o) 0 = true -> bid_before o b.
Proof.
  intros H. apply compare_orders_neg in H. unfold bid_before.
  destruct H as [H|[E T]]; [left; exact H|].
  right. split; [symmetry; exact E|]. apply Qlt_le_weak. exact T.
Qed.

Lemma ask_scan_passed (o a : order) :
  Qltb 0 (_compare_orders a o) = false -> ask_before_latest_first a o.
Proof.
  intros H. unfold ask_before_latest_first.
  destruct (Z.lt_trichotomy (price a) (price o)) as [L|[E|G]].
  - left. exact L.
  - right. split; [exact E|].
    apply Qnot_lt_le. intros T.
    assert (Qltb 0 (_compare_orders a o) = true) as C
      by (apply compare_orders_pos; right; split; assumption).
    congruence.
  - assert (Qltb 0 (_compare_orders a o) = true) as C
      by (apply compare_orders_pos; left; exact G).
    congruence.
Qed.

Lemma ask_scan_stopped (o a : order) :
  Qltb 0 (_compare_orders a o) = true -> ask_before_latest_first o a.
Proof.
  intros H. apply compare_orders_pos in H. unfold ask_before_latest_first.
  destruct H as [H|[E T]]; [left; exact H|].
  right. split; [symmetry; exact E|]. apply Qlt_le_weak. exact T.
Qed.

(** ** What each method does to each part of the replica *)

Lemma insert_bid_bids (o : order) (s : state) :
  bids (_insert_bid o s) =
  placed (fun b => Qltb (_compare_orders b o) 0) o (bids s).
Proof.
  unfold _insert_bid. rewrite <- splice_insert_scan.
  destruct (String.eqb _ _); reflexivity.
Qed.

Lemma insert_bid_asks (o : order) (s : state) :
  asks (_insert_bid o s) = asks s.
Proof. unfold _insert_bid. destruct (String.eqb _ _); reflexivity. Qed.

Lemma insert_ask_asks (o : order) (s : state) :
  asks (_insert_ask o s) =
  placed (fun a => Qltb 0 (_compare_orders a o)) o (asks s).
Proof.
  unfold _insert_ask. rewrite <- splice_insert_scan.
  destruct (String.eqb _ _); reflexivity.
Qed.

Lemma insert_ask_bids (o : order) (s : state) :
  bids (_insert_ask o s) = bids s.
Proof. unfold _insert_ask. destruct (String.eqb _ _); reflexivity. Qed.

Lemma confirm_enter_bids (o : order) (s : state) :
  bids (_handle_confirm_enter o s) =
  if is_bid o
  then placed (fun b => Qltb (_compare_orders b o) 0) o (bids s)
  else bids s.
Proof.
  unfold _handle_confirm_enter. simpl.
  destruct (is_bid o); [apply insert_bid_bids|apply insert_ask_bids].
Qed.

Lemma confirm_enter_asks (o : order) (s : state) :
  asks (_handle_confirm_enter o s) =
  if is_bid o
  then asks s
  else placed (fun a => Qltb 0 (_compare_orders a o)) o (asks s).
Proof.
  unfold _handle_confirm_enter. simpl.
  destruct (is_bid o); [apply insert_bid_asks|apply insert_ask_asks].
Qed.

Lemma confirm_enter_bids_sorted (o : order) (s : state) :
  StronglySorted bid_before (bids s) ->
  StronglySorted bid_before (bids (_handle_confirm_enter o s)).
Proof.
  intros H. rewrite confirm_enter_bids. destruct (is_bid o); [|exact H].
  apply placed_sorted; [exact bid_before_trans| | |exact H].
  - intros b. apply bid_scan_passed.
  - intros b. apply bid_scan_stopped.
Qed.

Lemma enter_all_bids_sorted (orders : list order) (s : state) :
  StronglySorted bid_before (bids s) ->
  StronglySorted bid_before (bids (enter_all orders s)).
Proof.
  revert s. induction orders as [|o rest IH]; intros s H; simpl; [exact H|].
  apply IH, confirm_enter_bids_sorted, H.
Qed.

(** ** Bid book *)

(** C4: whatever [confirm_enter] events arrive, after each of them the bid
    book is ordered by descending price, and at equal price by ascending
    timestamp, provided it was so ordered to begin with (the empty book is);
    and entering A(price=10, ts=1.0), B(price=12, ts=2.0), C(price=10,
    ts=0.5) into an empty bid book leaves it as [B; C; A]. *)
Theorem C4_bids_sorted_after_each_enter :
  (forall (s : state) (orders : list order) (k : nat),
      StronglySorted bid_before (bids s) ->
      StronglySorted bid_before (bids (enter_all (take k orders) s))) /\
  (forall (s : state) (A B C : order),
      bids s = [] ->
      is_bid A = true -> price A = 10 -> timestamp A = 1%Q ->
      is_bid B = true -> price B = 12 -> timestamp B = 2%Q ->
      is_bid C = true -> price C = 10 -> timestamp C = (1 # 2)%Q ->
      bids (enter_all [A; B; C] s) = [B; C; A]).
Proof.
  split.
  - intros s orders k H. apply enter_all_bids_sorted, H.
  - intros s A B C Hs bA pA tA bB pB tB bC pC tC.
    destruct A, B, C. cbn in bA, pA, tA, bB, pB, tB, bC, pC, tC. subst.
    unfold enter_all. cbn [fold_left].
    rewrite !confirm_enter_bids, Hs. reflexivity.
Qed.

Lemma C4_bids_sorted_witness :
  StronglySorted bid_before
    (bids (enter_all (take 2 [bid_A; bid_B; bid_C]) fresh_state)) /\
  bids (enter_all [bid_A; bid_B; bid_C] fresh_state) = [bid_B; bid_C; bid_A].
Proof.
  split.
  - apply (proj1 C4_bids_sorted_after_each_enter fresh_state
             [bid_A; bid_B; bid_C] 2%nat).
    simpl. constructor.
  - apply (proj2 C4_bids_sorted_after_each_enter fresh_state
             bid_A bid_B bid_C); reflexivity.
Defined.

(** ** Ask book *)

Lemma confirm_enter_asks_sorted (o : order) (s : state) :
  StronglySorted ask_before_latest_first (asks s) ->
  StronglySorted ask_before_latest_first (asks (_handle_confirm_enter o s)).
Proof.
  intros H. rewrite confirm_enter_asks. destruct (is_bid o); [exact H|].
  apply placed_sorted; [exact ask_before_latest_first_trans| | |exact H].
  - intros a. apply ask_scan_passed.
  - intros a. apply ask_scan_stopped.
Qed.

(** What the ask book does satisfy: ascending price, and at equal price the
    latest order first. *)
Lemma enter_all_asks_sorted_latest_first (orders : list order) (s : state) :
  StronglySorted ask_before_latest_first (asks s) ->
  StronglySorted ask_before_latest_first (asks (enter_all orders s)).
Proof.
  revert s. induction orders as [|o rest IH]; intros s H; simpl; [exact H|].
  apply IH, confirm_enter_asks_sorted, H.
Qed.

(** C2: two asks at the same price, the first entered at ts=1.0 and the
    second at ts=2.0, end up with the later one first: the ask book is not
    ordered by ascending timestamp among equal prices. *)
Theorem C2_asks_equal_price_latest_first :
  asks (enter_all [ask_X; ask_Y] fresh_state) = [ask_Y; ask_X] /\
  ~ StronglySorted ask_before (asks (enter_all [ask_X; ask_Y] fresh_state)).
Proof.
  split; [reflexivity|].
  change (asks (enter_all [ask_X; ask_Y] fresh_state))
    with [ask_Y; ask_X].
  intros H. inversion H as [|? ? _ Hall]; subst.
  inversion Hall as [|? ? Hyx _]; subst.
  destruct Hyx as [Hp|[_ Ht]].
  - simpl in Hp. lia.
  - simpl in Ht. apply Qle_bool_iff in Ht. discriminate Ht.
Qed.

(** ** Frame lemmas: what the helper methods leave alone *)

Lemma update_holdings_frame (p v : Z) (b : bool) (a : string) (s : state) :
  let s' := _update_holdings p v b a s in
  this_pcode s' = this_pcode s /\ bids s' = bids s /\ asks s' = asks s /\
  trades s' = trades s /\ emitted s' = emitted s.
Proof. unfold _update_holdings. destruct b; simpl; repeat split. Qed.

Lemma remove_order_frame (o : order) (s : state) :
  let s' := _remove_order o s in
  this_pcode s' = this_pcode s /\ trades s' = trades s /\
  settledAssetsDict s' = settledAssetsDict s /\
  availableAssetsDict s' = availableAssetsDict s /\
  settledCash s' = settledCash s /\ availableCash s' = availableCash s.
Proof.
  unfold _remove_order.
  destruct (is_bid o); destruct (_ <=? _)%nat; simpl; repeat split.
Qed.

Lemma cond_update_holdings_frame (c : bool) (p v : Z) (b : bool)
    (a : string) (s : state) :
  let s' := if c then _update_holdings p v b a s else s in
  this_pcode s' = this_pcode s /\ bids s' = bids s /\ asks s' = asks s /\
  trades s' = trades s /\ emitted s' = emitted s.
Proof.
  destruct c; [apply update_holdings_frame|]. simpl. repeat split.
Qed.

Lemma trade_leg_frame (msg : trade) (s : state) (m : order) :
  this_pcode (trade_leg msg s m) = this_pcode s /\
  trades (trade_leg msg s m) = trades s.
Proof.
  unfold trade_leg. cbv zeta.
  pose proof (cond_update_holdings_frame
                (String.eqb (pcode m) (this_pcode s))
                (price m) (traded_volume m) (is_bid m) (asset_name m) s)
    as F1. cbv zeta in F1.
  remember (if String.eqb (pcode m) (this_pcode s)
            then _update_holdings (price m) (traded_volume m) (is_bid m)
                   (asset_name m) s
            else s) as s1 eqn:E1.
  pose proof (cond_update_holdings_frame
                (String.eqb (pcode (taking_order msg)) (this_pcode s1))
                (price m) (traded_volume m) (is_bid (taking_order msg))
                (asset_name (taking_order msg)) s1)
    as F2. cbv zeta in F2.
  remember (if String.eqb (pcode (taking_order msg)) (this_pcode s1)
            then _update_holdings (price m) (traded_volume m)
                   (is_bid (taking_order msg))
                   (asset_name (taking_order msg)) s1
            else s1) as s2 eqn:E2.
  pose proof (remove_order_frame m s2) as F3. cbv zeta in F3.
  destruct F1 as (P1 & _ & _ & T1 & _).
  destruct F2 as (P2 & _ & _ & T2 & _).
  destruct F3 as (P3 & T3 & _). split; congruence.
Qed.

Lemma trade_legs_frame (msg : trade) (ms : list order) (s : state) :
  this_pcode (fold_left (trade_leg msg) ms s) = this_pcode s /\
  trades (fold_left (trade_leg msg) ms s) = trades s.
Proof.
  revert s. induction ms as [|m rest IH]; intros s; simpl; [auto|].
  destruct (IH (trade_leg msg s m)) as [P T].
  destruct (trade_leg_frame msg s m) as [P' T']. split; congruence.
Qed.

(** ** Trades list *)

(** Whatever the timestamps, the handler puts the new trade in front. *)
Lemma confirm_trade_prepends (msg : trade) (s : state) :
  trades (_handle_confirm_trade msg s) =
  {| trade_timestamp := trade_timestamp msg;
     trade_asset_name := trade_asset_name msg;
     taking_order := taking_order msg;
     making_orders := making_orders msg |} :: trades s.
Proof.
  unfold _handle_confirm_trade, for_index, splice_insert. simpl.
  destruct (trade_legs_frame msg (making_orders msg) s) as [_ T].
  rewrite T. reflexivity.
Qed.

(** C1: starting with no trades, a [confirm_trade] at ts=1.0 followed by a
    [confirm_trade] at ts=2.0 leaves the list as [ts=2.0; ts=1.0]: the
    second trade has no later trade to stand before, yet it is put in front
    of the first, and the list is not in ascending timestamp order. *)
Theorem C1_trades_not_sorted_after_insert :
  let s1 := _handle_confirm_trade (trade_at 1) fresh_state in
  let s2 := _handle_confirm_trade (trade_at 2) s1 in
  run [ {| type := "confirm_trade"; msg_payload := PTrade (trade_at 1) |};
        {| type := "confirm_trade"; msg_payload := PTrade (trade_at 2) |} ]
      fresh_state = Some s2 /\
  trades s1 = [trade_at 1] /\
  trades s2 = [trade_at 2; trade_at 1] /\
  ~ StronglySorted trade_before (trades s2).
Proof.
  cbv zeta. split; [reflexivity|]. split; [reflexivity|].
  split; [reflexivity|].
  change (trades _) with [trade_at 2; trade_at 1].
  intros H. inversion H as [|? ? _ Hall]; subst.
  inversion Hall as [|? ? Ht _]; subst.
  unfold trade_before in Ht. simpl in Ht.
  apply Qle_bool_iff in Ht. discriminate Ht.
Qed.

(** ** Holdings *)

(** Adding [- v] to an entry is taking [v] from it. *)
Lemma update_subproperty_sub (a : string) (v : Z) (d : gmap string number) :
  _update_subproperty a (Num (- v)) d = entry_sub a v d.
Proof.
  unfold _update_subproperty, entry_sub. f_equal.
Qed.

(** [_update_holdings] is [on_trade_leg]. *)
Lemma update_holdings_on_trade_leg (p v : Z) (b : bool) (a : string)
    (s : state) :
  holdings_of (_update_holdings p v b a s) =
  on_trade_leg (holdings_of s)
    {| leg_price := p; leg_volume := v; leg_is_bid := b; leg_asset := a |}.
Proof.
  unfold _update_holdings, on_trade_leg, holdings_of.
  destruct b; simpl.
  - reflexivity.
  - rewrite !update_subproperty_sub. reflexivity.
Qed.

(** C6 does not hold on every state nor for every amount: for an asset
    without an entry the leg stores [NaN] instead of adding the volume, and
    a leg whose price times volume is the odd number 94906267^2, above 2^53,
    takes one less than that from a cash of 100. *)
Lemma C6_update_holdings_counterexample :
  (availableAssetsDict state_without_asset !! "A" = None /\
   availableAssetsDict
     (_update_holdings 10 3 true "A" state_without_asset) !! "A"
     = Some NaN) /\
  (availableCash fresh_state = Num 100 /\
   availableCash
     (_update_holdings odd_factor odd_factor true "A" fresh_state)
     = Num (-9007199515875188) /\
   100 - odd_factor * odd_factor = -9007199515875189).
Proof. vm_compute. repeat split. Qed.

(** C6: for an asset [a] whose name has no ['.'] and that has a number as
    its entry in both dictionaries, and cash that is a number, a trade leg
    with price [p] and volume [v] on the bid side adds [v] to
    [availableAssetsDict[a]] and to [settledAssetsDict[a]] and takes [p*v]
    from [availableCash] and from [settledCash], provided these values, the
    amounts and the results are integers of at most 2^53 in magnitude; on the
    ask side the same amounts move the other way under the same proviso; no
    other entry of either dictionary changes.  With [p=10], [v=3] on the bid
    side that is +3 on the asset and -30 on the cash, available and settled
    alike. *)
Theorem C6_update_holdings_deltas :
  forall (s : state) (p v : Z) (a : string) (x y c d : Z),
    has_dot a = false ->
    availableAssetsDict s !! a = Some (Num x) ->
    settledAssetsDict s !! a = Some (Num y) ->
    availableCash s = Num c ->
    settledCash s = Num d ->
    (exact_sum x v -> exact_sum y v ->
     exact_sum c (- (p * v)) -> exact_sum d (- (p * v)) ->
     let s' := _update_holdings p v true a s in
     availableAssetsDict s' = <[a := Num (x + v)]> (availableAssetsDict s) /\
     settledAssetsDict s' = <[a := Num (y + v)]> (settledAssetsDict s) /\
     availableCash s' = Num (c - p * v) /\
     settledCash s' = Num (d - p * v)) /\
    (exact_sum x (- v) -> exact_sum y (- v) ->
     exact_sum c (p * v) -> exact_sum d (p * v) ->
     let s' := _update_holdings p v false a s in
     availableAssetsDict s' = <[a := Num (x - v)]> (availableAssetsDict s) /\
     settledAssetsDict s' = <[a := Num (y - v)]> (settledAssetsDict s) /\
     availableCash s' = Num (c + p * v) /\
     settledCash s' = Num (d + p * v)) /\
    (p = 10 -> v = 3 ->
     exact_sum x 3 -> exact_sum y 3 ->
     exact_sum c (- 30) -> exact_sum d (- 30) ->
     let s' := _update_holdings p v true a s in
     availableAssetsDict s' !! a = Some (Num (x + 3)) /\
     settledAssetsDict s' !! a = Some (Num (y + 3)) /\
     availableCash s' = Num (c - 30) /\
     settledCash s' = Num (d - 30)).
Proof.
  intros s p v a x y c d _ Hx Hy Hc Hd.
  assert (forall b : bool,
            exact_sum x (if b then v else - v) ->
            exact_sum y (if b then v else - v) ->
            exact_sum c (if b then - (p * v) else p * v) ->
            exact_sum d (if b then - (p * v) else p * v) ->
            let s' := _update_holdings p v b a s in
            availableAssetsDict s' =
              <[a := Num (x + (if b then v else - v))]>
                (availableAssetsDict s) /\
            settledAssetsDict s' =
              <[a := Num (y + (if b then v else - v))]>
                (settledAssetsDict s) /\
            availableCash s' = Num (c + (if b then - (p * v) else p * v)) /\
            settledCash s' = Num (d + (if b then - (p * v) else p * v)))
    as Hleg.
  { intros b (Sx & Sv & Sxv) (Sy & _ & Syv) (Sc & Sa & Sca) (Sd & _ & Sda).
    unfold _update_holdings, _update_subproperty.
    destruct b;
      cbn [availableAssetsDict settledAssetsDict availableCash settledCash
           set_availableAssetsDict set_settledAssetsDict set_availableCash
           set_settledCash];
      rewrite Hx, Hy, Hc, Hd; unfold js_add_undef, js_sub, js_neg;
      rewrite ?Z.opp_involutive;
      rewrite !js_add_exact by assumption;
      repeat split. }
  split; [|split].
  - intros E1 E2 E3 E4. exact (Hleg true E1 E2 E3 E4).
  - intros E1 E2 E3 E4. cbv zeta.
    destruct (Hleg false E1 E2 E3 E4) as (A1 & A2 & A3 & A4).
    rewrite A1, A2, A3, A4. repeat split.
  - intros -> -> E1 E2 E3 E4. cbv zeta.
    destruct (Hleg true E1 E2 E3 E4) as (A1 & A2 & A3 & A4).
    rewrite A1, A2, A3, A4, !lookup_insert_eq.
    repeat split; do 2 f_equal; lia.
Qed.

Lemma C6_update_holdings_witness :
  let s' := _update_holdings 10 3 true "A" fresh_state in
  availableAssetsDict s' !! "A" = Some (Num (10 + 3)) /\
  settledAssetsDict s' !! "A" = Some (Num (10 + 3)) /\
  availableCash s' = Num (100 - 30) /\
  settledCash s' = Num (100 - 30).
Proof.
  apply (proj2 (proj2 (C6_update_holdings_deltas fresh_state 10 3 "A"
                         10 10 100 100 eq_refl eq_refl eq_refl eq_refl
                         eq_refl)));
    try reflexivity; unfold exact_sum, safe; simpl; lia.
Defined.

(** ** Trade legs *)

Lemma remove_order_holdings (o : order) (s : state) :
  holdings_of (_remove_order o s) = holdings_of s.
Proof.
  pose proof (remove_order_frame o s) as F. cbv zeta in F.
  destruct F as (_ & _ & H1 & H2 & H3 & H4).
  unfold holdings_of. rewrite H1, H2, H3, H4. reflexivity.
Qed.

(** One iteration of the loop, for a viewer who is the taker. *)
Lemma trade_leg_holdings (msg : trade) (s : state) (m : order) :
  pcode (taking_order msg) = this_pcode s ->
  holdings_of (trade_leg msg s m) =
  fold_left on_trade_leg
    ((if String.eqb (pcode m) (this_pcode s) then [maker_leg m] else [])
     ++ [taker_leg (taking_order msg) m])
    (holdings_of s).
Proof.
  intros Htaker. unfold trade_leg. cbv zeta.
  rewrite remove_order_holdings.
  destruct (String.eqb (pcode m) (this_pcode s)) eqn:Em.
  - pose proof (update_holdings_frame (price m) (traded_volume m)
                  (is_bid m) (asset_name m) s) as F. cbv zeta in F.
    destruct F as (P & _). rewrite P, Htaker, String.eqb_refl.
    rewrite !update_holdings_on_trade_leg. reflexivity.
  - rewrite Htaker, String.eqb_refl.
    rewrite update_holdings_on_trade_leg. reflexivity.
Qed.

Lemma trade_legs_holdings (msg : trade) (ms : list order) (s : state) :
  pcode (taking_order msg) = this_pcode s ->
  holdings_of (fold_left (trade_leg msg) ms s) =
  fold_left on_trade_leg
    (flat_map
       (fun m =>
          (if String.eqb (pcode m) (this_pcode s) then [maker_leg m] else [])
          ++ [taker_leg (taking_order msg) m]) ms)
    (holdings_of s).
Proof.
  revert s. induction ms as [|m rest IH]; intros s Htaker; [reflexivity|].
  cbn [fold_left flat_map]. rewrite fold_left_app.
  rewrite <- trade_leg_holdings by exact Htaker.
  destruct (trade_leg_frame msg s m) as [P _].
  rewrite IH by congruence. rewrite P. reflexivity.
Qed.

(** C7: when the viewer is the taker of a trade, the holdings after the
    handler are the holdings before it charged with [taker_legs]: for each
    making order in sequence one taker leg, at that making order's price and
    traded volume and on the taking order's side and asset, preceded by the
    maker's own leg when the viewer owns that making order as well; nothing
    is merged or left out. *)
Theorem C7_taker_charged_once_per_making_order :
  forall (s : state) (msg : trade),
    pcode (taking_order msg) = this_pcode s ->
    holdings_of (_handle_confirm_trade msg s) =
    fold_left on_trade_leg (taker_legs (this_pcode s) msg) (holdings_of s).
Proof.
  intros s msg Htaker. unfold taker_legs.
  rewrite <- trade_legs_holdings by exact Htaker. reflexivity.
Qed.

Lemma C7_taker_charged_witness :
  holdings_of (_handle_confirm_trade taken_trade resting_state) =
  fold_left on_trade_leg
    [ taker_leg (taking_order taken_trade) maker_other;
      maker_leg maker_own;
      taker_leg (taking_order taken_trade) maker_own ]
    (holdings_of resting_state).
Proof.
  apply (C7_taker_charged_once_per_making_order resting_state taken_trade).
  reflexivity.
Defined.

(** ** Removal by order id *)

Section ScanDelete.
Context {A : Type} (stop : A -> bool).

Lemma scan_none (xs : list A) :
  (forall x, x ∈ xs -> stop x = false) -> scan stop xs 0 = length xs.
Proof.
  induction xs as [|x rest IH]; intros H; simpl; [reflexivity|].
  rewrite (H x) by apply list_elem_of_here.
  rewrite scan_S. f_equal. apply IH. intros y Hy. apply H.
  apply list_elem_of_further, Hy.
Qed.

Lemma scan_all_passed (xs : list A) :
  (length xs <= scan stop xs 0)%nat ->
  forall x, x ∈ xs -> stop x = false.
Proof.
  induction xs as [|x rest IH]; simpl; intros H y Hy.
  - apply elem_of_nil in Hy. contradiction.
  - destruct (stop x) eqn:E; [lia|]. rewrite scan_S in H.
    apply elem_of_cons in Hy. destruct Hy as [->|Hy]; [exact E|].
    apply IH; [lia|exact Hy].
Qed.

Lemma without_first_none (xs : list A) :
  (forall x, x ∈ xs -> stop x = false) -> without_first stop xs = xs.
Proof.
  induction xs as [|x rest IH]; intros H; simpl; [reflexivity|].
  rewrite (H x) by apply list_elem_of_here. f_equal. apply IH.
  intros y Hy. apply H. apply list_elem_of_further, Hy.
Qed.

Lemma splice_delete_scan (xs : list A) :
  (scan stop xs 0 < length xs)%nat ->
  splice_delete (scan stop xs 0) xs = without_first stop xs.
Proof.
  unfold splice_delete.
  induction xs as [|x rest IH]; simpl; intros H; [lia|].
  destruct (stop x); simpl; [reflexivity|].
  rewrite scan_S in *. simpl. f_equal. apply IH. lia.
Qed.

Lemma without_first_sublist (xs : list A) :
  without_first stop xs `sublist_of` xs.
Proof.
  induction xs as [|x rest IH]; simpl; [constructor|].
  destruct (stop x); [apply sublist_cons; reflexivity|].
  apply sublist_skip, IH.
Qed.
End ScanDelete.

(** The selected book after [_remove_order], found or not. *)
Lemma remove_order_selected (o : order) (s : state) :
  selected_book o (_remove_order o s) =
  without_first (fun x => order_id x =? order_id o) (selected_book o s).
Proof.
  unfold _remove_order, selected_book.
  destruct (is_bid o); simpl.
  - destruct (Nat.leb_spec (length (bids s))
                (scan (fun x => order_id x =? order_id o) (bids s) 0))
      as [H|H]; simpl.
    + symmetry. apply without_first_none, scan_all_passed, H.
    + apply splice_delete_scan, H.
  - destruct (Nat.leb_spec (length (asks s))
                (scan (fun x => order_id x =? order_id o) (asks s) 0))
      as [H|H]; simpl.
    + symmetry. apply without_first_none, scan_all_passed, H.
    + apply splice_delete_scan, H.
Qed.

(** The other book is not looked at. *)
Lemma remove_order_other (o : order) (s : state) :
  (if is_bid o then asks (_remove_order o s) else bids (_remove_order o s)) =
  (if is_bid o then asks s else bids s).
Proof.
  unfold _remove_order.
  destruct (is_bid o); destruct (_ <=? _)%nat; reflexivity.
Qed.

Lemma remove_order_absent (o : order) (s : state) :
  (forall x, x ∈ selected_book o s -> order_id x <> order_id o) ->
  _remove_order o s =
  emit (Warn (order_id o) (if is_bid o then "bids" else "asks")) s.
Proof.
  intros H. unfold _remove_order. fold (selected_book o s).
  rewrite scan_none.
  - rewrite Nat.leb_refl. reflexivity.
  - intros x Hx. apply Z.eqb_neq, H, Hx.
Qed.

(** ** Cancel confirmations *)

(** C3 does not hold for the available holdings: a cancel confirmation for
    a bid of the viewer that rests in no book still adds [price * volume]
    to [availableCash]. *)
Lemma C3_cancel_absent_counterexample :
  (forall x, x ∈ selected_book stray_bid fresh_state ->
             order_id x <> order_id stray_bid) /\
  pcode stray_bid = this_pcode fresh_state /\
  availableCash fresh_state = Num 100 /\
  availableCash (_handle_confirm_cancel stray_bid fresh_state) = Num 150 /\
  availableCash (_handle_confirm_cancel stray_bid fresh_state) <>
  availableCash fresh_state.
Proof.
  split.
  - intros x Hx. apply elem_of_nil in Hx. contradiction.
  - repeat split. discriminate.
Qed.

(** C3: a cancel confirmation whose order id is not in the book its
    [is_bid] flag selects leaves both books, the trades, [settledCash] and
    [settledAssetsDict] as they were and emits one warning followed by the
    cancel notification, without throwing.  [availableCash] and
    [availableAssetsDict] are left alone when the order is not the viewer's;
    when it is, the release of a cancel is applied all the same:
    [price * volume] is added to [availableCash] for a bid, [volume] to
    [availableAssetsDict[asset_name]] for an ask. *)
Theorem C3_cancel_of_absent_order :
  forall (s : state) (o : order),
    (forall x, x ∈ selected_book o s -> order_id x <> order_id o) ->
    let s' := _handle_confirm_cancel o s in
    bids s' = bids s /\ asks s' = asks s /\ trades s' = trades s /\
    settledCash s' = settledCash s /\
    settledAssetsDict s' = settledAssetsDict s /\
    emitted s' =
      emitted s ++ [Warn (order_id o) (if is_bid o then "bids" else "asks");
                    Dispatch "confirm-order-cancel" (POrder o)] /\
    (pcode o <> this_pcode s ->
     availableCash s' = availableCash s /\
     availableAssetsDict s' = availableAssetsDict s) /\
    (pcode o = this_pcode s -> is_bid o = true ->
     availableCash s' = js_add (availableCash s) (Num (price o * volume o)) /\
     availableAssetsDict s' = availableAssetsDict s) /\
    (pcode o = this_pcode s -> is_bid o = false ->
     availableCash s' = availableCash s /\
     availableAssetsDict s' =
       entry_add (asset_name o) (volume o) (availableAssetsDict s)).
Proof.
  intros s o Habsent. unfold _handle_confirm_cancel. cbv zeta.
  rewrite (remove_order_absent o s Habsent).
  change (this_pcode (emit _ s)) with (this_pcode s).
  destruct (String.eqb_spec (pcode o) (this_pcode s)) as [E|E];
    destruct (is_bid o); simpl; rewrite <- ?app_assoc; simpl;
    repeat split; try reflexivity; try congruence; try discriminate.
Qed.

Lemma C3_cancel_of_absent_order_witness :
  let s' := _handle_confirm_cancel stray_bid fresh_state in
  bids s' = bids fresh_state /\ asks s' = asks fresh_state /\
  trades s' = trades fresh_state /\
  settledCash s' = settledCash fresh_state /\
  settledAssetsDict s' = settledAssetsDict fresh_state /\
  emitted s' =
    emitted fresh_state ++
      [Warn 11 "bids"; Dispatch "confirm-order-cancel" (POrder stray_bid)] /\
  availableCash s' = Num (100 + 5 * 10).
Proof.
  assert (forall x, x ∈ selected_book stray_bid fresh_state ->
                    order_id x <> order_id stray_bid) as Habsent.
  { intros x Hx. apply elem_of_nil in Hx. contradiction. }
  pose proof (C3_cancel_of_absent_order fresh_state stray_bid Habsent) as H.
  cbv zeta in H.
  destruct H as (H1 & H2 & H3 & H4 & H5 & H6 & _ & H8 & _).
  destruct (H8 eq_refl eq_refl) as [H9 _].
  repeat split; assumption.
Defined.

(** ** Entering, then cancelling *)

Lemma confirm_enter_pcode (o : order) (s : state) :
  this_pcode (_handle_confirm_enter o s) = this_pcode s.
Proof.
  unfold _handle_confirm_enter, _insert_bid, _insert_ask. simpl.
  destruct (is_bid o); destruct (String.eqb _ _); reflexivity.
Qed.

Lemma exact_sum_opp_back (x z : Z) :
  exact_sum x (- z) -> safe z /\ safe (x - z) /\ exact_sum (x - z) z.
Proof.
  unfold exact_sum. intros (Sx & Sz & Sxz).
  apply safe_opp in Sz. rewrite Z.opp_involutive in Sz.
  replace (x + - z) with (x - z) in Sxz by lia.
  repeat split; try assumption.
  replace (x - z + z) with x by lia. exact Sx.
Qed.

(** Taking [z] off and adding it back, when no rounding occurs. *)
Lemma js_add_opp_cancel (c : number) (z : Z) :
  exact_step c (- z) ->
  js_add (js_add c (Num (- z))) (Num z) = c.
Proof.
  destruct c as [x|n|]; cbn [exact_step].
  - intros E. destruct (exact_sum_opp_back x z E) as (Sz & Sxz & S1 & S2 & S3).
    destruct E as (Sx & Snz & Sxnz).
    rewrite (js_add_exact x (- z)) by assumption.
    rewrite (js_add_exact (x + - z) z); [f_equal; lia|assumption|exact Sz|].
    replace (x + - z + z) with x by lia. exact Sx.
  - intros Snz. pose proof (safe_opp _ Snz) as Sz.
    rewrite Z.opp_involutive in Sz.
    rewrite js_add_Infinity_safe by exact Snz.
    apply js_add_Infinity_safe, Sz.
  - intros _. reflexivity.
Qed.

Lemma js_sub_add_cancel (c : number) (z : Z) :
  exact_step c (- z) ->
  js_add (js_sub c (Num z)) (Num z) = c.
Proof. apply js_add_opp_cancel. Qed.

Lemma update_subproperty_round_trip (a : string) (v : Z)
    (d : gmap string number) :
  (exists e, d !! a = Some e /\ exact_step e (- v)) ->
  _update_subproperty a (Num v) (_update_subproperty a (Num (- v)) d) = d.
Proof.
  intros (e & He & Hex). unfold _update_subproperty.
  rewrite lookup_insert_eq, insert_insert_eq, He.
  unfold js_add_undef. rewrite js_add_opp_cancel by exact Hex.
  apply insert_id, He.
Qed.

Lemma confirm_cancel_available (o : order) (s : state) :
  availableCash (_handle_confirm_cancel o s) =
    (if String.eqb (pcode o) (this_pcode s) && is_bid o
     then js_add (availableCash s) (Num (price o * volume o))
     else availableCash s) /\
  availableAssetsDict (_handle_confirm_cancel o s) =
    (if String.eqb (pcode o) (this_pcode s) && negb (is_bid o)
     then _update_subproperty (asset_name o) (Num (volume o))
            (availableAssetsDict s)
     else availableAssetsDict s).
Proof.
  unfold _handle_confirm_cancel. cbv zeta.
  pose proof (remove_order_frame o s) as F. cbv zeta in F.
  destruct F as (P & _ & _ & D & _ & C). rewrite P.
  destruct (String.eqb (pcode o) (this_pcode s)); destruct (is_bid o);
    simpl; rewrite ?C, ?D; split; reflexivity.
Qed.

Lemma confirm_enter_available (o : order) (s : state) :
  availableCash (_handle_confirm_enter o s) =
    (if String.eqb (pcode o) (this_pcode s) && is_bid o
     then js_sub (availableCash s) (Num (price o * volume o))
     else availableCash s) /\
  availableAssetsDict (_handle_confirm_enter o s) =
    (if String.eqb (pcode o) (this_pcode s) && negb (is_bid o)
     then _update_subproperty (asset_name o) (Num (- volume o))
            (availableAssetsDict s)
     else availableAssetsDict s).
Proof.
  unfold _handle_confirm_enter, _insert_bid, _insert_ask. simpl.
  destruct (is_bid o); destruct (String.eqb (pcode o) (this_pcode s));
    simpl; split; reflexivity.
Qed.

(** C5 does not hold on every state nor for every amount: when
    [availableAssetsDict] has no entry for the asset of an ask of the
    viewer, entering the ask stores [NaN] under that asset and cancelling it
    leaves [NaN] there, where there was no entry before; and entering and
    cancelling an own bid worth 2^60 on an [availableCash] of 100 leaves
    128. *)
Lemma C5_enter_cancel_counterexample :
  (pcode own_ask = this_pcode state_without_asset /\
   availableAssetsDict state_without_asset !! "A" = None /\
   availableAssetsDict
     (_handle_confirm_cancel own_ask
        (_handle_confirm_enter own_ask state_without_asset)) !! "A"
     = Some NaN /\
   availableAssetsDict
     (_handle_confirm_cancel own_ask
        (_handle_confirm_enter own_ask state_without_asset))
     <> availableAssetsDict state_without_asset) /\
  (pcode huge_bid = this_pcode fresh_state /\
   availableCash fresh_state = Num 100 /\
   availableCash
     (_handle_confirm_cancel huge_bid
        (_handle_confirm_enter huge_bid fresh_state)) = Num 128).
Proof.
  split.
  - split; [reflexivity|]. split; [reflexivity|]. split; [reflexivity|].
    intros H.
    apply (f_equal (fun d : gmap string number => d !! "A")) in H.
    discriminate H.
  - vm_compute. repeat split.
Qed.

(** C5: for an order of the viewer, a [confirm_enter] followed by a
    [confirm_cancel] of the same order brings [availableCash] and
    [availableAssetsDict] back to what they were before the entry, provided
    the amount is taken off and added back without rounding: for a bid,
    [availableCash], [price * volume] and their difference are integers of
    at most 2^53 in magnitude; for an ask, the name of the asset has no
    ['.'], [availableAssetsDict] has an entry for it, and that entry,
    [volume] and their difference are such integers.  (A value that is
    [NaN], or infinite while the amount is such an integer, comes back as
    it was too.) *)
Theorem C5_enter_then_cancel_restores_available :
  forall (s : state) (o : order),
    pcode o = this_pcode s ->
    (is_bid o = true ->
     exact_step (availableCash s) (- (price o * volume o))) ->
    (is_bid o = false ->
     has_dot (asset_name o) = false /\
     exists e, availableAssetsDict s !! asset_name o = Some e /\
               exact_step e (- volume o)) ->
    let s' := _handle_confirm_cancel o (_handle_confirm_enter o s) in
    availableCash s' = availableCash s /\
    availableAssetsDict s' = availableAssetsDict s.
Proof.
  intros s o Hown Hbid Hask. cbv zeta.
  destruct (confirm_cancel_available o (_handle_confirm_enter o s))
    as [C D].
  destruct (confirm_enter_available o s) as [C0 D0].
  rewrite C, D, C0, D0, confirm_enter_pcode.
  rewrite Hown, String.eqb_refl. cbn [andb].
  destruct (is_bid o) eqn:B; cbn [negb].
  - split; [apply js_sub_add_cancel, Hbid; reflexivity|reflexivity].
  - split; [reflexivity|].
    destruct (Hask eq_refl) as [_ He].
    apply update_subproperty_round_trip, He.
Qed.

Lemma C5_enter_then_cancel_witness :
  let s' := _handle_confirm_cancel own_ask
              (_handle_confirm_enter own_ask fresh_state) in
  availableCash s' = availableCash fresh_state /\
  availableAssetsDict s' = availableAssetsDict fresh_state.
Proof.
  apply (C5_enter_then_cancel_restores_available fresh_state own_ask).
  - reflexivity.
  - discriminate.
  - intros _. split; [reflexivity|]. exists (Num 10).
    split; [reflexivity|].
    unfold exact_step, exact_sum, safe. simpl. lia.
Defined.

(** ** Trades take their making orders off the books *)

Lemma without_first_id_gone (k : Z) (xs : list order) :
  NoDup (order_id <$> xs) ->
  forall x, x ∈ without_first (fun x => order_id x =? k) xs ->
            order_id x <> k.
Proof.
  induction xs as [|y rest IH]; simpl; intros Hnd x Hx.
  - apply elem_of_nil in Hx. contradiction.
  - apply NoDup_cons in Hnd. destruct Hnd as [Hy Hrest].
    destruct (Z.eqb_spec (order_id y) k) as [E|E].
    + intros Hk. apply Hy. rewrite E, <- Hk.
      apply list_elem_of_fmap_2, Hx.
    + apply elem_of_cons in Hx. destruct Hx as [->|Hx]; [exact E|].
      apply IH; assumption.
Qed.

Lemma update_holdings_books (c : bool) (p v : Z) (b : bool) (a : string)
    (s : state) :
  bids (if c then _update_holdings p v b a s else s) = bids s /\
  asks (if c then _update_holdings p v b a s else s) = asks s.
Proof.
  pose proof (cond_update_holdings_frame c p v b a s) as F.
  cbv zeta in F. tauto.
Qed.

(** What one iteration of the loop does to the books: the making order's
    first match leaves the book its flag selects, the other book stays. *)
Lemma trade_leg_books (msg : trade) (s : state) (m : order) :
  selected_book m (trade_leg msg s m) =
    without_first (fun x => order_id x =? order_id m) (selected_book m s) /\
  (if is_bid m then asks (trade_leg msg s m) else bids (trade_leg msg s m)) =
    (if is_bid m then asks s else bids s).
Proof.
  unfold trade_leg. cbv zeta.
  rewrite remove_order_selected, remove_order_other.
  unfold selected_book.
  match goal with
  | |- context [bids (if ?c2 then _update_holdings ?p2 ?v2 ?b2 ?a2
                         (if ?c1 then _update_holdings ?p1 ?v1 ?b1 ?a1 s
                          else s)
                      else _)] =>
      destruct (update_holdings_books c1 p1 v1 b1 a1 s) as [B1 A1];
      destruct (update_holdings_books c2 p2 v2 b2 a2
                  (if c1 then _update_holdings p1 v1 b1 a1 s else s))
        as [B2 A2]
  end.
  rewrite B2, A2, B1, A1. split; reflexivity.
Qed.

Lemma trade_leg_sublists (msg : trade) (s : state) (m : order) :
  bids (trade_leg msg s m) `sublist_of` bids s /\
  asks (trade_leg msg s m) `sublist_of` asks s.
Proof.
  destruct (trade_leg_books msg s m) as [Hsel Hother].
  unfold selected_book in Hsel.
  destruct (is_bid m); rewrite Hsel, Hother;
    split; try reflexivity; apply without_first_sublist.
Qed.

Lemma trade_legs_sublists (msg : trade) (ms : list order) (s : state) :
  bids (fold_left (trade_leg msg) ms s) `sublist_of` bids s /\
  asks (fold_left (trade_leg msg) ms s) `sublist_of` asks s.
Proof.
  revert s. induction ms as [|m rest IH]; intros s; simpl.
  - split; reflexivity.
  - destruct (IH (trade_leg msg s m)) as [B A].
    destruct (trade_leg_sublists msg s m) as [B' A'].
    split; etransitivity; eassumption.
Qed.

Lemma sublist_ids_NoDup (xs ys : list order) :
  xs `sublist_of` ys -> NoDup (order_id <$> ys) -> NoDup (order_id <$> xs).
Proof.
  intros H Hnd. apply (sublist_NoDup _ (order_id <$> ys)); [exact Hnd|].
  apply (fmap_sublist order_id), H.
Qed.

Lemma trade_legs_ids_gone (msg : trade) (ms : list order) (s : state) :
  NoDup (order_id <$> bids s) -> NoDup (order_id <$> asks s) ->
  forall m, m ∈ ms ->
  forall x, x ∈ selected_book m (fold_left (trade_leg msg) ms s) ->
            order_id x <> order_id m.
Proof.
  revert s. induction ms as [|m0 rest IH]; intros s Hb Ha m Hm x Hx.
  - apply elem_of_nil in Hm. contradiction.
  - simpl in Hx.
    destruct (trade_leg_sublists msg s m0) as [Sb Sa].
    pose proof (sublist_ids_NoDup _ _ Sb Hb) as Hb'.
    pose proof (sublist_ids_NoDup _ _ Sa Ha) as Ha'.
    apply elem_of_cons in Hm. destruct Hm as [->|Hm].
    + destruct (trade_legs_sublists msg rest (trade_leg msg s m0))
        as [Rb Ra].
      assert (x ∈ selected_book m0 (trade_leg msg s m0)) as Hx'.
      { unfold selected_book in *.
        destruct (is_bid m0);
          [eapply sublist_subseteq; [exact Rb|exact Hx]
          |eapply sublist_subseteq; [exact Ra|exact Hx]]. }
      destruct (trade_leg_books msg s m0) as [Hsel _].
      rewrite Hsel in Hx'.
      eapply without_first_id_gone; [|exact Hx'].
      unfold selected_book. destruct (is_bid m0); assumption.
    + eapply IH; eassumption.
Qed.

Lemma confirm_trade_books (msg : trade) (s : state) :
  bids (_handle_confirm_trade msg s) =
    bids (fold_left (trade_leg msg) (making_orders msg) s) /\
  asks (_handle_confirm_trade msg s) =
    asks (fold_left (trade_leg msg) (making_orders msg) s).
Proof. split; reflexivity. Qed.

(** C8: a trade puts nothing into a book, whatever the [traded_volume] and
    the resting [volume] of its making orders are: each book after the
    trade is what is left of the book before it; and, order ids being unique
    within each book, after the trade no order with the id of one of its
    making orders is left in the book that making order's [is_bid] flag
    selects. *)
Theorem C8_trade_removes_making_orders :
  forall (s : state) (msg : trade),
    let s' := _handle_confirm_trade msg s in
    bids s' `sublist_of` bids s /\
    asks s' `sublist_of` asks s /\
    (NoDup (order_id <$> bids s) ->
     NoDup (order_id <$> asks s) ->
     forall m, m ∈ making_orders msg ->
       forall x, x ∈ selected_book m s' -> order_id x <> order_id m).
Proof.
  intros s msg. cbv zeta.
  destruct (confirm_trade_books msg s) as [Eb Ea].
  destruct (trade_legs_sublists msg (making_orders msg) s) as [Sb Sa].
  split; [rewrite Eb; exact Sb|]. split; [rewrite Ea; exact Sa|].
  intros Hb Ha m Hm x Hx. unfold selected_book in Hx. rewrite Eb, Ea in Hx.
  eapply (trade_legs_ids_gone msg (making_orders msg) s); eassumption.
Qed.

Lemma C8_trade_removes_witness :
  traded_volume maker_other < volume maker_other /\
  maker_other ∈ asks resting_state /\
  forall m, m ∈ making_orders taken_trade ->
    forall x,
      x ∈ selected_book m (_handle_confirm_trade taken_trade resting_state) ->
      order_id x <> order_id m.
Proof.
  split; [reflexivity|]. split; [apply list_elem_of_here|].
  apply (proj2 (proj2 (C8_trade_removes_making_orders
                         resting_state taken_trade))).
  - simpl. constructor.
  - simpl. apply NoDup_cons. split.
    + intros H. apply list_elem_of_singleton in H. discriminate H.
    + apply NoDup_singleton.
Defined.

(** ** Order ids stay unique *)

Lemma placed_Permutation {A} (stop : A -> bool) (item : A) (xs : list A) :
  placed stop item xs ≡ₚ item :: xs.
Proof.
  induction xs as [|x rest IH]; simpl; [reflexivity|].
  destruct (stop x); [reflexivity|].
  rewrite IH. apply Permutation_swap.
Qed.

Lemma confirm_enter_ids (o : order) (s : state) :
  resident_ids (_handle_confirm_enter o s) ≡ₚ order_id o :: resident_ids s.
Proof.
  unfold resident_ids.
  rewrite confirm_enter_bids, confirm_enter_asks.
  destruct (is_bid o); rewrite placed_Permutation.
  - reflexivity.
  - rewrite <- Permutation_middle. reflexivity.
Qed.

Lemma sublists_ids_NoDup (s s' : state) :
  bids s' `sublist_of` bids s -> asks s' `sublist_of` asks s ->
  NoDup (resident_ids s) -> NoDup (resident_ids s').
Proof.
  intros Hb Ha. unfold resident_ids.
  apply sublist_ids_NoDup, sublist_app; assumption.
Qed.

Lemma remove_order_sublists (o : order) (s : state) :
  bids (_remove_order o s) `sublist_of` bids s /\
  asks (_remove_order o s) `sublist_of` asks s.
Proof.
  pose proof (remove_order_selected o s) as Hsel.
  pose proof (remove_order_other o s) as Hother.
  unfold selected_book in Hsel.
  destruct (is_bid o); rewrite Hsel, Hother;
    split; try reflexivity; apply without_first_sublist.
Qed.

Lemma confirm_cancel_books (o : order) (s : state) :
  bids (_handle_confirm_cancel o s) = bids (_remove_order o s) /\
  asks (_handle_confirm_cancel o s) = asks (_remove_order o s).
Proof.
  unfold _handle_confirm_cancel. cbv zeta.
  destruct (String.eqb _ _); destruct (is_bid o); split; reflexivity.
Qed.

Lemma handle_error_books (e : error_payload) (s : state) :
  bids (_handle_error e s) = bids s /\ asks (_handle_error e s) = asks s.
Proof.
  unfold _handle_error. destruct (String.eqb _ _); split; reflexivity.
Qed.

Lemma message_handlers_confirm_enter (name : string) :
  message_handlers name = Some Handle_confirm_enter ->
  String.eqb name "confirm_enter" = true.
Proof.
  unfold message_handlers.
  destruct (String.eqb name "confirm_enter"); [reflexivity|].
  repeat (destruct (String.eqb name _); [discriminate|]).
  destruct (bool_decide _); discriminate.
Qed.

Lemma call_inherited_state (name : string) (s : state) :
  state_of (call_inherited name s) = s.
Proof. unfold call_inherited. destruct (bool_decide _); reflexivity. Qed.

(** One event: a well-formed message is handled, and the ids stay unique. *)
Lemma on_message_ids (msg : message) (s : state) :
  well_formed msg = true ->
  NoDup (resident_ids s) ->
  enters_fresh [msg] s = true ->
  exists r, _on_message msg s = Some r /\ NoDup (resident_ids (state_of r)).
Proof.
  intros Hwf Hnd Hfresh.
  unfold well_formed in Hwf. unfold _on_message.
  cbn [enters_fresh] in Hfresh. apply andb_true_iff in Hfresh.
  destruct Hfresh as [Hfresh _].
  destruct (message_handlers (type msg)) as [h|] eqn:Eh;
    [|eexists; split; [reflexivity|exact Hnd]].
  destruct h; destruct (msg_payload msg) as [o|t|e]; try discriminate Hwf;
    cbn [call]; eexists; (split; [reflexivity|]); cbn [state_of].
  - apply message_handlers_confirm_enter in Eh. rewrite Eh in Hfresh.
    apply bool_decide_eq_true in Hfresh.
    rewrite confirm_enter_ids. apply NoDup_cons. split; assumption.
  - destruct (trade_legs_sublists t (making_orders t) s) as [Hb Ha].
    eapply sublists_ids_NoDup; [| |exact Hnd].
    + rewrite (proj1 (confirm_trade_books t s)). exact Hb.
    + rewrite (proj2 (confirm_trade_books t s)). exact Ha.
  - destruct (remove_order_sublists o s) as [Hb Ha].
    destruct (confirm_cancel_books o s) as [Eb Ea].
    eapply sublists_ids_NoDup; [| |exact Hnd].
    + rewrite Eb. exact Hb.
    + rewrite Ea. exact Ha.
  - destruct (handle_error_books e s) as [Eb Ea].
    unfold resident_ids. rewrite Eb, Ea. exact Hnd.
  - rewrite call_inherited_state. exact Hnd.
  - rewrite call_inherited_state. exact Hnd.
  - rewrite call_inherited_state. exact Hnd.
Qed.

(** C9: in a session of well-formed messages in which every
    [confirm_enter] brings an order id resident in neither book, every
    event is handled and after each of them no order id occurs twice in the
    bids and asks taken together, provided none did at the start. *)
Theorem C9_order_ids_unique_after_every_event :
  forall (msgs : list message) (s : state),
    forallb well_formed msgs = true ->
    NoDup (resident_ids s) ->
    enters_fresh msgs s = true ->
    forall k : nat,
      exists s', run (take k msgs) s = Some s' /\ NoDup (resident_ids s').
Proof.
  induction msgs as [|msg rest IH]; intros s Hwf Hnd Hfresh k.
  - rewrite take_nil. exists s. split; [reflexivity|exact Hnd].
  - destruct k as [|k]; [exists s; split; [reflexivity|exact Hnd]|].
    cbn [forallb] in Hwf. apply andb_true_iff in Hwf.
    destruct Hwf as [Hwf Hrest].
    cbn [enters_fresh] in Hfresh. apply andb_true_iff in Hfresh.
    destruct Hfresh as [Hhead Htail].
    destruct (on_message_ids msg s Hwf Hnd) as (r & Hr & Hnd').
    { cbn [enters_fresh]. rewrite Hhead.
      destruct (_on_message msg s); reflexivity. }
    rewrite Hr in Htail.
    destruct (IH (state_of r) Hrest Hnd' Htail k) as (s' & Hrun & Hs').
    exists s'. split; [|exact Hs'].
    cbn [take run]. rewrite Hr. exact Hrun.
Qed.

Lemma C9_order_ids_unique_witness :
  exists s', run (take 5 session) fresh_state = Some s' /\
             NoDup (resident_ids s').
Proof.
  apply (C9_order_ids_unique_after_every_event session fresh_state).
  - reflexivity.
  - constructor.
  - reflexivity.
Defined.

(** ** Messages of other types *)

Lemma message_handlers_other (name : string) :
  name <> "confirm_enter" -> name <> "confirm_trade" ->
  name <> "confirm_cancel" -> name <> "error" ->
  message_handlers name =
  if bool_decide (name ∈ Object_prototype) then Some (Inherited name)
  else None.
Proof.
  intros H1 H2 H3 H4. unfold message_handlers.
  apply String.eqb_neq in H1, H2, H3, H4.
  rewrite H1, H2, H3, H4. reflexivity.
Qed.

(** A message of none of the four types changes nothing, and it is rejected
    with the "invalid message type" error unless its type names a property
    of [Object.prototype]. *)
Lemma on_message_other_type (msg : message) (s : state) :
  type msg <> "confirm_enter" -> type msg <> "confirm_trade" ->
  type msg <> "confirm_cancel" -> type msg <> "error" ->
  exists r,
    _on_message msg s = Some r /\ state_of r = s /\
    (type msg ∉ Object_prototype ->
     r = Threw ("error: invalid message type: " ++ type msg) s).
Proof.
  intros H1 H2 H3 H4. unfold _on_message.
  rewrite (message_handlers_other _ H1 H2 H3 H4).
  destruct (bool_decide_reflect (type msg ∈ Object_prototype)) as [Hin|Hout].
  - exists (call_inherited (type msg) s). cbn [call].
    split; [reflexivity|]. split; [apply call_inherited_state|].
    intros Hout. contradiction.
  - eexists. split; [reflexivity|]. split; reflexivity.
Qed.

(** C10: a message whose type is ["toString"] is of none of the four
    types, yet the dispatcher finds a handler for it (the method inherited
    from [Object.prototype]), throws nothing and returns; the replica is
    left as it was. *)
Theorem C10_inherited_type_is_not_rejected :
  forall (s : state) (p : payload),
    let msg := {| type := "toString"; msg_payload := p |} in
    type msg <> "confirm_enter" /\ type msg <> "confirm_trade" /\
    type msg <> "confirm_cancel" /\ type msg <> "error" /\
    message_handlers (type msg) = Some (Inherited "toString") /\
    _on_message msg s = Some (Returned s).
Proof.
  intros s p. cbv zeta.
  repeat split; discriminate.
Qed.

(** * Further properties of the handlers *)

(** ** Sessions of well-formed messages *)

(** What the dispatcher does with a well-formed message: it runs the
    handler that goes with the payload, or it leaves the replica alone. *)
Lemma on_message_cases (msg : message) (s : state) :
  well_formed msg = true ->
  (exists o, msg_payload msg = POrder o /\
     _on_message msg s = Some (Returned (_handle_confirm_enter o s))) \/
  (exists t, msg_payload msg = PTrade t /\
     _on_message msg s = Some (Returned (_handle_confirm_trade t s))) \/
  (exists o, msg_payload msg = POrder o /\
     _on_message msg s = Some (Returned (_handle_confirm_cancel o s))) \/
  (exists e, msg_payload msg = PError e /\
     _on_message msg s = Some (Returned (_handle_error e s))) \/
  (exists r, _on_message msg s = Some r /\ state_of r = s).
Proof.
  unfold well_formed, _on_message. intros Hwf.
  destruct (message_handlers (type msg)) as [h|].
  - destruct h; destruct (msg_payload msg) as [o|t|e];
      try discriminate Hwf; cbn [call].
    + left. exists o. split; reflexivity.
    + right. left. exists t. split; reflexivity.
    + right. right. left. exists o. split; reflexivity.
    + right. right. right. left. exists e. split; reflexivity.
    + right. right. right. right. eexists.
      split; [reflexivity|apply call_inherited_state].
    + right. right. right. right. eexists.
      split; [reflexivity|apply call_inherited_state].
    + right. right. right. right. eexists.
      split; [reflexivity|apply call_inherited_state].
  - right. right. right. right. eexists. split; reflexivity.
Qed.

Section SessionInvariant.
Context (P : state -> Prop).
Hypothesis enter_keeps : forall o s, P s -> P (_handle_confirm_enter o s).
Hypothesis trade_keeps : forall t s, P s -> P (_handle_confirm_trade t s).
Hypothesis cancel_keeps : forall o s, P s -> P (_handle_confirm_cancel o s).
Hypothesis error_keeps : forall e s, P s -> P (_handle_error e s).

Lemma on_message_invariant (msg : message) (s : state) :
  well_formed msg = true -> P s ->
  exists r, _on_message msg s = Some r /\ P (state_of r).
Proof.
  intros Hwf HP.
  destruct (on_message_cases msg s Hwf)
    as [(o & _ & E)|[(t & _ & E)|[(o & _ & E)|[(e & _ & E)|(r & E & Er)]]]];
    rewrite E; eexists; (split; [reflexivity|]); cbn [state_of]; auto.
  rewrite Er. exact HP.
Qed.

Lemma run_invariant (msgs : list message) (s : state) :
  forallb well_formed msgs = true -> P s ->
  exists s', run msgs s = Some s' /\ P s'.
Proof.
  revert s. induction msgs as [|msg rest IH]; intros s Hwf HP.
  - exists s. split; [reflexivity|exact HP].
  - cbn [forallb] in Hwf. apply andb_true_iff in Hwf.
    destruct Hwf as [Hmsg Hrest].
    destruct (on_message_invariant msg s Hmsg HP) as (r & Er & HPr).
    destruct (IH (state_of r) Hrest HPr) as (s' & Es' & HPs').
    exists s'. split; [|exact HPs']. cbn [run]. rewrite Er. exact Es'.
Qed.
End SessionInvariant.

Lemma forallb_take {A} (f : A -> bool) (k : nat) (xs : list A) :
  forallb f xs = true -> forallb f (take k xs) = true.
Proof.
  revert k. induction xs as [|x rest IH]; intros k H.
  - rewrite take_nil. reflexivity.
  - destruct k as [|k]; [reflexivity|].
    cbn [forallb] in *. apply andb_true_iff in H. destruct H as [Hx Hr].
    cbn [take forallb]. rewrite Hx. apply IH, Hr.
Qed.

(** ** Both books stay in their order over a whole session *)

Lemma sublist_StronglySorted {A} (R : A -> A -> Prop) (xs ys : list A) :
  xs `sublist_of` ys -> StronglySorted R ys -> StronglySorted R xs.
Proof.
  induction 1 as [|x xs ys Hsub IH|x xs ys Hsub IH]; intros Hs.
  - constructor.
  - inversion Hs as [|? ? Hys Hx]; subst. constructor; [auto|].
    apply Forall_forall. intros y Hy. rewrite Forall_forall in Hx.
    apply Hx. eapply sublist_subseteq; eassumption.
  - inversion Hs; subst. auto.
Qed.

Lemma confirm_cancel_sublists (o : order) (s : state) :
  bids (_handle_confirm_cancel o s) `sublist_of` bids s /\
  asks (_handle_confirm_cancel o s) `sublist_of` asks s.
Proof.
  destruct (confirm_cancel_books o s) as [Eb Ea].
  destruct (remove_order_sublists o s) as [Sb Sa].
  rewrite Eb, Ea. split; assumption.
Qed.

Lemma confirm_trade_sublists (t : trade) (s : state) :
  bids (_handle_confirm_trade t s) `sublist_of` bids s /\
  asks (_handle_confirm_trade t s) `sublist_of` asks s.
Proof.
  destruct (confirm_trade_books t s) as [Eb Ea].
  destruct (trade_legs_sublists t (making_orders t) s) as [Sb Sa].
  rewrite Eb, Ea. split; assumption.
Qed.

(** X1: over a whole session of well-formed messages (entries, cancels,
    trades, errors, unknown types), every event is handled and after each
    of them the bid book is ordered by descending price with equal prices
    earliest first, and the ask book by ascending price with equal prices
    latest first, provided they were so ordered at the start. *)
Theorem X1_books_stay_in_order :
  forall (msgs : list message) (s : state) (k : nat),
    forallb well_formed msgs = true ->
    books_in_order s ->
    exists s', run (take k msgs) s = Some s' /\ books_in_order s'.
Proof.
  intros msgs s k Hwf Hs.
  apply run_invariant; [| | | |apply forallb_take, Hwf|exact Hs].
  - intros o s0 [Hb Ha]. split.
    + apply confirm_enter_bids_sorted, Hb.
    + apply confirm_enter_asks_sorted, Ha.
  - intros t s0 [Hb Ha].
    destruct (confirm_trade_sublists t s0) as [Sb Sa]. split.
    + eapply sublist_StronglySorted; eassumption.
    + eapply sublist_StronglySorted; eassumption.
  - intros o s0 [Hb Ha].
    destruct (confirm_cancel_sublists o s0) as [Sb Sa]. split.
    + eapply sublist_StronglySorted; eassumption.
    + eapply sublist_StronglySorted; eassumption.
  - intros e s0 [Hb Ha]. destruct (handle_error_books e s0) as [Eb Ea].
    unfold books_in_order. rewrite Eb, Ea. split; assumption.
Qed.

Lemma X1_books_stay_in_order_witness :
  exists s',
    run (take 11 busy_session) fresh_state = Some s' /\ books_in_order s'.
Proof.
  apply (X1_books_stay_in_order busy_session fresh_state 11).
  - reflexivity.
  - split; constructor.
Defined.

(** ** Orders rest on the side their flag names *)

Lemma sublist_Forall {A} (Q : A -> Prop) (xs ys : list A) :
  xs `sublist_of` ys -> Forall Q ys -> Forall Q xs.
Proof.
  intros Hsub H. apply Forall_forall. intros x Hx.
  rewrite Forall_forall in H. apply H.
  eapply sublist_subseteq; eassumption.
Qed.

Lemma placed_Forall {A} (Q : A -> Prop) (stop : A -> bool) (item : A)
    (xs : list A) :
  Q item -> Forall Q xs -> Forall Q (placed stop item xs).
Proof.
  intros Hi H. apply Forall_forall. intros x Hx.
  apply placed_elem in Hx. destruct Hx as [->|Hx]; [exact Hi|].
  rewrite Forall_forall in H. auto.
Qed.

(** X2: over a whole session of well-formed messages every event is handled
    and, after each of them, every order in [bids] has [is_bid] true and
    every order in [asks] has [is_bid] false, provided that was so at the
    start: no handler ever files an order on the wrong side. *)
Theorem X2_orders_rest_on_their_side :
  forall (msgs : list message) (s : state) (k : nat),
    forallb well_formed msgs = true ->
    sides_respected s ->
    exists s', run (take k msgs) s = Some s' /\ sides_respected s'.
Proof.
  intros msgs s k Hwf Hs.
  apply run_invariant; [| | | |apply forallb_take, Hwf|exact Hs].
  - intros o s0 [Hb Ha]. unfold sides_respected.
    rewrite confirm_enter_bids, confirm_enter_asks.
    destruct (is_bid o) eqn:E; split; try assumption.
    + apply placed_Forall; assumption.
    + apply placed_Forall; assumption.
  - intros t s0 [Hb Ha].
    destruct (confirm_trade_sublists t s0) as [Sb Sa].
    split; eapply sublist_Forall; eassumption.
  - intros o s0 [Hb Ha].
    destruct (confirm_cancel_sublists o s0) as [Sb Sa].
    split; eapply sublist_Forall; eassumption.
  - intros e s0 [Hb Ha]. destruct (handle_error_books e s0) as [Eb Ea].
    unfold sides_respected. rewrite Eb, Ea. split; assumption.
Qed.

Lemma X2_orders_rest_on_their_side_witness :
  exists s', run (take 5 session) fresh_state = Some s' /\ sides_respected s'.
Proof.
  apply (X2_orders_rest_on_their_side session fresh_state 5).
  - reflexivity.
  - split; constructor.
Defined.

(** ** Where an entry goes *)

Lemma placed_split {A} (stop : A -> bool) (item : A) (xs : list A) :
  exists front back,
    xs = front ++ back /\
    placed stop item xs = front ++ item :: back /\
    Forall (fun x => stop x = false) front /\
    (forall y rest, back = y :: rest -> stop y = true).
Proof.
  induction xs as [|x rest IH]; simpl.
  - exists [], []. repeat split; [constructor|discriminate].
  - destruct (stop x) eqn:E.
    + exists [], (x :: rest). repeat split; [constructor|].
      intros y r Hy. injection Hy as <- _. exact E.
    + destruct IH as (front & back & Hxs & Hpl & Hfront & Hback).
      exists (x :: front), back. rewrite Hxs at 1. rewrite Hpl.
      repeat split; [constructor; assumption|exact Hback].
Qed.

(** X3: a [confirm_enter] puts its order into the book its flag selects, in
    one place, and moves nothing else: the book is cut in two, the resting
    orders in front of the cut all have priority over the new order (for
    bids: a higher price, or the same price and a timestamp not later; for
    asks: a lower price, or the same price and a timestamp not earlier), the
    first order behind it does not (for bids: a lower price, or the same
    price and a later timestamp; for asks: a higher price, or the same price
    and an earlier timestamp); the other book and the trades are left as
    they were. *)
Theorem X3_entry_position :
  forall (o : order) (s : state),
    let s' := _handle_confirm_enter o s in
    trades s' = trades s /\
    (is_bid o = true ->
     asks s' = asks s /\
     exists front back,
       bids s = front ++ back /\
       bids s' = front ++ o :: back /\
       Forall (fun x => bid_before x o) front /\
       (forall y rest, back = y :: rest ->
          price y < price o \/
          (price y = price o /\ (timestamp o < timestamp y)%Q))) /\
    (is_bid o = false ->
     bids s' = bids s /\
     exists front back,
       asks s = front ++ back /\
       asks s' = front ++ o :: back /\
       Forall (fun x => ask_before_latest_first x o) front /\
       (forall y rest, back = y :: rest ->
          price o < price y \/
          (price y = price o /\ (timestamp y < timestamp o)%Q))).
Proof.
  intros o s. cbv zeta.
  split.
  { unfold _handle_confirm_enter, _insert_bid, _insert_ask. simpl.
    destruct (is_bid o); destruct (String.eqb _ _); reflexivity. }
  rewrite confirm_enter_bids, confirm_enter_asks.
  split; intros Hside; rewrite Hside; (split; [reflexivity|]).
  - destruct (placed_split (fun b => Qltb (_compare_orders b o) 0) o (bids s))
      as (front & back & Hxs & Hpl & Hfront & Hback).
    exists front, back. repeat split; try assumption.
    + eapply Forall_impl; [exact Hfront|].
      intros x Hx. apply bid_scan_passed, Hx.
    + intros y rest Hy. apply (Hback y rest) in Hy.
      apply compare_orders_neg in Hy. exact Hy.
  - destruct (placed_split (fun a => Qltb 0 (_compare_orders a o)) o (asks s))
      as (front & back & Hxs & Hpl & Hfront & Hback).
    exists front, back. repeat split; try assumption.
    + eapply Forall_impl; [exact Hfront|].
      intros x Hx. apply ask_scan_passed, Hx.
    + intros y rest Hy. apply (Hback y rest) in Hy.
      apply compare_orders_pos in Hy. exact Hy.
Qed.

Lemma X3_entry_position_witness :
  asks (_handle_confirm_enter bid_C (enter_all [bid_A; bid_B] fresh_state)) =
    asks (enter_all [bid_A; bid_B] fresh_state) /\
  exists front back,
    bids (enter_all [bid_A; bid_B] fresh_state) = front ++ back /\
    bids (_handle_confirm_enter bid_C (enter_all [bid_A; bid_B] fresh_state))
      = front ++ bid_C :: back /\
    Forall (fun x => bid_before x bid_C) front /\
    (forall y rest, back = y :: rest ->
       price y < price bid_C \/
       (price y = price bid_C /\ (timestamp bid_C < timestamp y)%Q)).
Proof.
  apply (proj1 (proj2 (X3_entry_position bid_C
                         (enter_all [bid_A; bid_B] fresh_state)))).
  reflexivity.
Defined.

(** ** Cancelling *)

Lemma without_first_placed {A} (stop found : A -> bool) (item : A)
    (xs : list A) :
  found item = true ->
  (forall x, x ∈ xs -> found x = false) ->
  without_first found (placed stop item xs) = xs.
Proof.
  intros Hitem. induction xs as [|x rest IH]; intros Hxs; simpl.
  - rewrite Hitem. reflexivity.
  - destruct (stop x); simpl.
    + rewrite Hitem. reflexivity.
    + rewrite (Hxs x) by apply list_elem_of_here. f_equal. apply IH.
      intros y Hy. apply Hxs, list_elem_of_further, Hy.
Qed.

Lemma without_first_split {A} (found : A -> bool) (xs : list A) :
  (exists x, x ∈ xs /\ found x = true) ->
  exists front x back,
    xs = front ++ x :: back /\ found x = true /\
    Forall (fun y => found y = false) front /\
    without_first found xs = front ++ back.
Proof.
  induction xs as [|y rest IH]; intros (x & Hx & Hf).
  - apply elem_of_nil in Hx. contradiction.
  - simpl. destruct (found y) eqn:E.
    + exists [], y, rest. repeat split; [exact E|constructor].
    + apply elem_of_cons in Hx. destruct Hx as [->|Hx]; [congruence|].
      destruct IH as (front & x' & back & Hxs & Hx' & Hfront & Hw);
        [exists x; split; assumption|].
      exists (y :: front), x', back. rewrite Hxs at 1. rewrite Hw.
      repeat split; [exact Hx'|constructor; assumption].
Qed.

Lemma scan_found {A} (found : A -> bool) (xs : list A) :
  (exists x, x ∈ xs /\ found x = true) ->
  (scan found xs 0 < length xs)%nat.
Proof.
  intros (x & Hx & Hf).
  destruct (Nat.lt_ge_cases (scan found xs 0) (length xs)) as [H|H];
    [exact H|].
  pose proof (scan_all_passed found xs H x Hx). congruence.
Qed.

(** What a cancel does when the order id is found in the selected book. *)
Lemma cancel_of_resident_order_facts :
  forall (o : order) (s : state),
    (exists x, x ∈ selected_book o s /\ order_id x = order_id o) ->
    let s' := _handle_confirm_cancel o s in
    (exists front x back,
        selected_book o s = front ++ x :: back /\
        order_id x = order_id o /\
        Forall (fun y => order_id y <> order_id o) front /\
        selected_book o s' = front ++ back) /\
    (if is_bid o then asks s' = asks s else bids s' = bids s) /\
    trades s' = trades s /\
    emitted s' = emitted s ++ [Dispatch "confirm-order-cancel" (POrder o)] /\
    (NoDup (order_id <$> selected_book o s) ->
     forall y, y ∈ selected_book o s' -> order_id y <> order_id o).
Proof.
  intros o s (x & Hx & Hid). cbv zeta.
  assert (exists x, x ∈ selected_book o s /\
                    (order_id x =? order_id o) = true) as Hfound.
  { exists x. split; [exact Hx|]. apply Z.eqb_eq, Hid. }
  destruct (confirm_cancel_books o s) as [Eb Ea].
  assert (selected_book o (_handle_confirm_cancel o s) =
          without_first (fun y => order_id y =? order_id o)
            (selected_book o s)) as Hsel.
  { rewrite <- remove_order_selected. unfold selected_book.
    destruct (is_bid o); [exact Eb|exact Ea]. }
  split; [|split; [|split; [|split]]].
  - destruct (without_first_split _ _ Hfound)
      as (front & x' & back & Hxs & Hx' & Hfront & Hw).
    exists front, x', back. rewrite Hsel, Hw.
    repeat split; [exact Hxs|apply Z.eqb_eq, Hx'|].
    eapply Forall_impl; [exact Hfront|].
    intros y Hy. apply Z.eqb_neq, Hy.
  - pose proof (remove_order_other o s) as Ho.
    destruct (is_bid o); [rewrite Ea|rewrite Eb]; exact Ho.
  - unfold _handle_confirm_cancel. cbv zeta.
    pose proof (remove_order_frame o s) as F. cbv zeta in F.
    destruct F as (_ & T & _).
    destruct (String.eqb _ _); destruct (is_bid o); simpl; exact T.
  - pose proof (scan_found _ _ Hfound) as Hlt.
    apply Nat.leb_gt in Hlt.
    unfold _handle_confirm_cancel, _remove_order. cbv zeta.
    fold (selected_book o s). rewrite Hlt.
    destruct (is_bid o); simpl; destruct (String.eqb _ _); reflexivity.
  - intros Hnd y Hy. rewrite Hsel in Hy.
    eapply without_first_id_gone; eassumption.
Qed.

(** X4: a [confirm_cancel] naming an order id that rests in the book the
    order's flag selects takes out the first order of that book with that
    id and nothing else, leaves the other book and the trades alone, and
    emits the cancel notification without any warning; if the ids in that
    book are unique, no order with that id is left in it. *)
Theorem X4_cancel_of_resident_order :
  forall (o : order) (s : state),
    (exists x, x ∈ selected_book o s /\ order_id x = order_id o) ->
    let s' := _handle_confirm_cancel o s in
    (exists front x back,
        selected_book o s = front ++ x :: back /\
        order_id x = order_id o /\
        Forall (fun y => order_id y <> order_id o) front /\
        selected_book o s' = front ++ back) /\
    (if is_bid o then asks s' = asks s else bids s' = bids s) /\
    trades s' = trades s /\
    emitted s' = emitted s ++ [Dispatch "confirm-order-cancel" (POrder o)] /\
    (NoDup (order_id <$> selected_book o s) ->
     forall y, y ∈ selected_book o s' -> order_id y <> order_id o).
Proof. exact cancel_of_resident_order_facts. Qed.

Lemma X4_cancel_of_resident_order_witness :
  exists front x back,
    selected_book maker_own resting_state = front ++ x :: back /\
    order_id x = order_id maker_own /\
    Forall (fun y => order_id y <> order_id maker_own) front /\
    selected_book maker_own (_handle_confirm_cancel maker_own resting_state)
      = front ++ back.
Proof.
  apply (X4_cancel_of_resident_order maker_own resting_state).
  exists maker_own. split; [|reflexivity].
  apply list_elem_of_further, list_elem_of_here.
Defined.

(** X5: entering an order whose id rests nowhere in the book its flag
    selects and then cancelling it leaves both books and the trades exactly
    as they were before the entry, and emits the two notifications and no
    warning. *)
Theorem X5_enter_then_cancel_restores_books :
  forall (o : order) (s : state),
    (forall x, x ∈ selected_book o s -> order_id x <> order_id o) ->
    let s' := _handle_confirm_cancel o (_handle_confirm_enter o s) in
    bids s' = bids s /\ asks s' = asks s /\ trades s' = trades s /\
    emitted s' =
      emitted s ++ [Dispatch "confirm-order-enter" (POrder o);
                    Dispatch "confirm-order-cancel" (POrder o)].
Proof.
  intros o s Hfresh. cbv zeta.
  set (s1 := _handle_confirm_enter o s).
  assert (exists x, x ∈ selected_book o s1 /\ order_id x = order_id o)
    as Hres.
  { exists o. split; [|reflexivity]. unfold selected_book, s1.
    rewrite confirm_enter_bids, confirm_enter_asks.
    destruct (is_bid o); apply placed_elem; left; reflexivity. }
  assert (selected_book o (_handle_confirm_cancel o s1) = selected_book o s)
    as Hsel.
  { destruct (confirm_cancel_books o s1) as [Eb Ea].
    transitivity (selected_book o (_remove_order o s1)).
    { unfold selected_book. destruct (is_bid o); assumption. }
    rewrite remove_order_selected. unfold selected_book, s1.
    rewrite confirm_enter_bids, confirm_enter_asks.
    destruct (is_bid o) eqn:E; apply without_first_placed;
      try apply Z.eqb_refl;
      intros x Hx; apply Z.eqb_neq, Hfresh; unfold selected_book;
      rewrite E; exact Hx. }
  pose proof (cancel_of_resident_order_facts o s1 Hres) as H4.
  cbv zeta in H4. destruct H4 as (_ & Hother & Ht & He & _).
  assert (trades s1 = trades s /\
          emitted s1 = emitted s ++ [Dispatch "confirm-order-enter" (POrder o)])
    as [Ht1 He1].
  { unfold s1, _handle_confirm_enter, _insert_bid, _insert_ask. simpl.
    destruct (is_bid o); destruct (String.eqb _ _); split; reflexivity. }
  unfold selected_book in Hsel.
  assert (bids s1 = if is_bid o
                    then placed (fun b => Qltb (_compare_orders b o) 0) o
                           (bids s)
                    else bids s) as Hb1 by apply confirm_enter_bids.
  assert (asks s1 = if is_bid o
                    then asks s
                    else placed (fun a => Qltb 0 (_compare_orders a o)) o
                           (asks s)) as Ha1 by apply confirm_enter_asks.
  rewrite Ht, Ht1, He, He1, <- app_assoc.
  destruct (is_bid o).
  - rewrite Hsel, Hother, Ha1. repeat split.
  - rewrite Hsel, Hother, Hb1. repeat split.
Qed.

Lemma X5_enter_then_cancel_restores_books_witness :
  let s' := _handle_confirm_cancel own_ask
              (_handle_confirm_enter own_ask resting_state) in
  bids s' = bids resting_state /\ asks s' = asks resting_state /\
  trades s' = trades resting_state /\
  emitted s' =
    emitted resting_state ++
      [Dispatch "confirm-order-enter" (POrder own_ask);
       Dispatch "confirm-order-cancel" (POrder own_ask)].
Proof.
  apply (X5_enter_then_cancel_restores_books own_ask resting_state).
  intros x Hx. simpl in Hx.
  apply elem_of_cons in Hx. destruct Hx as [->|Hx]; [discriminate|].
  apply list_elem_of_singleton in Hx. subst x. discriminate.
Defined.

(** ** The trades list is kept newest arrival first *)

Lemma trade_record_eta (t : trade) :
  {| trade_timestamp := trade_timestamp t;
     trade_asset_name := trade_asset_name t;
     taking_order := taking_order t;
     making_orders := making_orders t |} = t.
Proof. destruct t. reflexivity. Qed.

Lemma trade_all_trades (msgs : list trade) (s : state) :
  trades (trade_all msgs s) = reverse msgs ++ trades s.
Proof.
  revert s. induction msgs as [|t rest IH]; intros s; [reflexivity|].
  unfold trade_all in *. cbn [fold_left]. rewrite IH.
  rewrite confirm_trade_prepends, trade_record_eta, reverse_cons.
  rewrite <- app_assoc. reflexivity.
Qed.

Lemma StronglySorted_snoc {A} (R : A -> A -> Prop) (xs : list A) (x : A) :
  StronglySorted R xs -> Forall (fun y => R y x) xs ->
  StronglySorted R (xs ++ [x]).
Proof.
  induction 1 as [|y ys Hs IH Hy]; intros Hx; simpl.
  - repeat constructor.
  - inversion Hx; subst. constructor; [auto|].
    apply Forall_app. split; [exact Hy|]. constructor; [assumption|constructor].
Qed.

Lemma StronglySorted_reverse {A} (R : A -> A -> Prop) (xs : list A) :
  StronglySorted R xs -> StronglySorted (fun a b => R b a) (reverse xs).
Proof.
  induction 1 as [|x xs Hs IH Hx]; [constructor|].
  rewrite reverse_cons. apply StronglySorted_snoc; [exact IH|].
  apply Forall_forall. intros y Hy. rewrite elem_of_reverse in Hy.
  rewrite Forall_forall in Hx. exact (Hx y Hy).
Qed.

(** X6: the trades list is the trades in reverse order of arrival: after
    any sequence of [confirm_trade] events it is those trades, last
    arrived first, followed by the trades that were there before; no trade
    is dropped or reordered afterwards.  So when the list, read backwards,
    and the arrivals after it are in ascending timestamp order, the list is
    in descending timestamp order. *)
Theorem X6_trades_newest_arrival_first :
  forall (msgs : list trade) (s : state),
    trades (trade_all msgs s) = reverse msgs ++ trades s /\
    (StronglySorted trade_before (reverse (trades s) ++ msgs) ->
     StronglySorted trade_after (trades (trade_all msgs s))).
Proof.
  intros msgs s. split; [apply trade_all_trades|].
  intros H. rewrite trade_all_trades.
  apply StronglySorted_reverse in H.
  rewrite reverse_app, reverse_involutive in H. exact H.
Qed.

Lemma X6_trades_newest_arrival_first_witness :
  StronglySorted trade_after
    (trades (trade_all [trade_at 1; trade_at 2] fresh_state)).
Proof.
  apply (proj2 (X6_trades_newest_arrival_first
                  [trade_at 1; trade_at 2] fresh_state)).
  simpl. repeat constructor. unfold trade_before. simpl.
  apply Qle_bool_iff. reflexivity.
Defined.

(** ** Whose holdings a message moves *)

Lemma cond_update_holdings_on_trade_leg (c : bool) (p v : Z) (b : bool)
    (a : string) (s : state) :
  holdings_of (if c then _update_holdings p v b a s else s) =
  fold_left on_trade_leg
    (if c then [{| leg_price := p; leg_volume := v; leg_is_bid := b;
                   leg_asset := a |}] else [])
    (holdings_of s).
Proof.
  destruct c; [apply update_holdings_on_trade_leg|reflexivity].
Qed.

(** One iteration of the loop, for any viewer. *)
Lemma trade_leg_holdings_any (msg : trade) (s : state) (m : order) :
  holdings_of (trade_leg msg s m) =
  fold_left on_trade_leg
    ((if String.eqb (pcode m) (this_pcode s) then [maker_leg m] else [])
     ++ (if String.eqb (pcode (taking_order msg)) (this_pcode s)
         then [taker_leg (taking_order msg) m] else []))
    (holdings_of s).
Proof.
  unfold trade_leg. cbv zeta. rewrite remove_order_holdings.
  rewrite cond_update_holdings_on_trade_leg.
  rewrite cond_update_holdings_on_trade_leg.
  destruct (cond_update_holdings_frame
              (String.eqb (pcode m) (this_pcode s))
              (price m) (traded_volume m) (is_bid m) (asset_name m) s)
    as (P & _).
  rewrite P, fold_left_app. reflexivity.
Qed.

Lemma trade_legs_holdings_any (msg : trade) (ms : list order) (s : state) :
  holdings_of (fold_left (trade_leg msg) ms s) =
  fold_left on_trade_leg
    (flat_map
       (fun m =>
          (if String.eqb (pcode m) (this_pcode s) then [maker_leg m] else [])
          ++ (if String.eqb (pcode (taking_order msg)) (this_pcode s)
              then [taker_leg (taking_order msg) m] else [])) ms)
    (holdings_of s).
Proof.
  revert s. induction ms as [|m rest IH]; intros s; [reflexivity|].
  cbn [fold_left flat_map]. rewrite fold_left_app.
  rewrite <- trade_leg_holdings_any.
  destruct (trade_leg_frame msg s m) as [P _].
  rewrite IH, P. reflexivity.
Qed.

(** The holdings after a trade, for any viewer. *)
Lemma confirm_trade_viewer_legs :
  forall (s : state) (msg : trade),
    holdings_of (_handle_confirm_trade msg s) =
    fold_left on_trade_leg (viewer_legs (this_pcode s) msg) (holdings_of s).
Proof.
  intros s msg. unfold viewer_legs.
  rewrite <- trade_legs_holdings_any. reflexivity.
Qed.

(** X7: whoever the viewer is, the holdings after a [confirm_trade] are the
    holdings before it charged with [viewer_legs]: for each making order in
    sequence, the maker's leg if the viewer owns that making order, then the
    taker's leg (the making order's price and traded volume on the taking
    order's side and asset) if the viewer owns the taking order.  The
    removal of the making orders from the books, found or not, has no part
    in it. *)
Theorem X7_trade_charges_the_viewers_legs :
  forall (s : state) (msg : trade),
    holdings_of (_handle_confirm_trade msg s) =
    fold_left on_trade_leg (viewer_legs (this_pcode s) msg) (holdings_of s).
Proof. exact confirm_trade_viewer_legs. Qed.

Lemma viewer_legs_none (viewer : string) (msg : trade) :
  pcode (taking_order msg) <> viewer ->
  Forall (fun m => pcode m <> viewer) (making_orders msg) ->
  viewer_legs viewer msg = [].
Proof.
  intros Ht Hm. unfold viewer_legs.
  apply String.eqb_neq in Ht. rewrite Ht.
  induction Hm as [|m rest Hm' _ IH]; [reflexivity|].
  cbn [flat_map]. apply String.eqb_neq in Hm'. rewrite Hm', IH. reflexivity.
Qed.

(** X8: the holdings belong to the viewer: a [confirm_enter] or a
    [confirm_cancel] of somebody else's order, a [confirm_trade] in which
    the viewer owns neither the taking order nor any making order, and any
    [error] message leave all four holdings exactly as they were. *)
Theorem X8_other_participants_do_not_move_holdings :
  forall (s : state),
    (forall o, pcode o <> this_pcode s ->
       holdings_of (_handle_confirm_enter o s) = holdings_of s /\
       holdings_of (_handle_confirm_cancel o s) = holdings_of s) /\
    (forall msg,
       pcode (taking_order msg) <> this_pcode s ->
       Forall (fun m => pcode m <> this_pcode s) (making_orders msg) ->
       holdings_of (_handle_confirm_trade msg s) = holdings_of s) /\
    (forall e, holdings_of (_handle_error e s) = holdings_of s).
Proof.
  intros s. split; [|split].
  - intros o Ho. apply String.eqb_neq in Ho. split.
    + unfold _handle_confirm_enter, _insert_bid, _insert_ask. simpl.
      rewrite Ho. destruct (is_bid o); reflexivity.
    + unfold _handle_confirm_cancel. cbv zeta.
      pose proof (remove_order_frame o s) as F. cbv zeta in F.
      destruct F as (P & _). rewrite P, Ho.
      apply remove_order_holdings.
  - intros msg Ht Hm. rewrite confirm_trade_viewer_legs.
    rewrite viewer_legs_none by assumption. reflexivity.
  - intros e. unfold _handle_error.
    destruct (String.eqb _ _); reflexivity.
Qed.

Lemma X8_other_participants_witness :
  holdings_of (_handle_confirm_enter bid_A fresh_state) =
    holdings_of fresh_state /\
  holdings_of (_handle_confirm_cancel bid_A fresh_state) =
    holdings_of fresh_state.
Proof.
  apply (proj1 (X8_other_participants_do_not_move_holdings fresh_state)).
  discriminate.
Defined.

(** X9: the settled holdings move on trades only: whoever owns the order, a
    [confirm_enter] and a [confirm_cancel] leave [settledCash] and
    [settledAssetsDict] as they were, and of the available holdings a bid
    touches the cash only and an ask the assets only. *)
Theorem X9_entries_and_cancels_leave_settled_alone :
  forall (o : order) (s : state),
    (settledCash (_handle_confirm_enter o s) = settledCash s /\
     settledAssetsDict (_handle_confirm_enter o s) = settledAssetsDict s /\
     settledCash (_handle_confirm_cancel o s) = settledCash s /\
     settledAssetsDict (_handle_confirm_cancel o s) = settledAssetsDict s) /\
    (is_bid o = true ->
     availableAssetsDict (_handle_confirm_enter o s) = availableAssetsDict s /\
     availableAssetsDict (_handle_confirm_cancel o s) = availableAssetsDict s) /\
    (is_bid o = false ->
     availableCash (_handle_confirm_enter o s) = availableCash s /\
     availableCash (_handle_confirm_cancel o s) = availableCash s).
Proof.
  intros o s.
  destruct (confirm_enter_available o s) as [Ce De].
  destruct (confirm_cancel_available o s) as [Cc Dc].
  split; [|split].
  - clear Ce De Cc Dc.
    pose proof (remove_order_frame o s) as F. cbv zeta in F.
    destruct F as (_ & _ & SD & _ & SC & _).
    unfold _handle_confirm_enter, _insert_bid, _insert_ask,
      _handle_confirm_cancel. cbv zeta.
    repeat split.
    + simpl. destruct (is_bid o); destruct (String.eqb _ _); reflexivity.
    + simpl. destruct (is_bid o); destruct (String.eqb _ _); reflexivity.
    + destruct (String.eqb (pcode o) (this_pcode (_remove_order o s)));
        destruct (is_bid o); exact SC.
    + destruct (String.eqb (pcode o) (this_pcode (_remove_order o s)));
        destruct (is_bid o); exact SD.
  - intros Hb. rewrite De, Dc, Hb, !andb_false_r. split; reflexivity.
  - intros Hb. rewrite Ce, Cc, Hb, !andb_false_r. split; reflexivity.
Qed.

Lemma X9_entries_and_cancels_witness :
  availableAssetsDict (_handle_confirm_enter stray_bid fresh_state) =
    availableAssetsDict fresh_state /\
  availableAssetsDict (_handle_confirm_cancel stray_bid fresh_state) =
    availableAssetsDict fresh_state.
Proof.
  apply (proj1 (proj2 (X9_entries_and_cancels_leave_settled_alone
                         stray_bid fresh_state))).
  reflexivity.
Defined.

(** ** Legs applied without rounding *)

Lemma cash_weight_nonneg (ls : list leg) : 0 <= cash_weight ls.
Proof. induction ls as [|l rest IH]; simpl; lia. Qed.

Lemma volume_weight_nonneg (ls : list leg) : 0 <= volume_weight ls.
Proof. induction ls as [|l rest IH]; simpl; lia. Qed.

Lemma room_weaken (c : number) (w w' : Z) : w' <= w -> room c w -> room c w'.
Proof. destruct c; simpl; lia. Qed.

(** One exact step, and the room that is left. *)
Lemma room_step (c : number) (delta w : Z) :
  0 <= w -> room c (Z.abs delta + w) ->
  js_add c (Num delta) = shifted c delta /\ room (shifted c delta) w.
Proof.
  intros Hw. destruct c as [x|n|]; cbn [room shifted]; intros H.
  - split; [|lia]. apply js_add_exact; unfold safe; lia.
  - split; [|lia]. apply js_add_Infinity_safe. unfold safe. lia.
  - split; [reflexivity|exact I].
Qed.

Lemma room_step_sub (c : number) (amount w : Z) :
  0 <= w -> room c (Z.abs amount + w) ->
  js_sub c (Num amount) = shifted c (- amount) /\
  room (shifted c (- amount)) w.
Proof.
  intros Hw H. apply (room_step c (- amount) w Hw).
  rewrite Z.abs_opp. exact H.
Qed.

Lemma entry_step (a : string) (delta w : Z) (d : gmap string number) :
  0 <= w ->
  (forall k, entry_room (d !! k) (Z.abs delta + w)) ->
  _update_subproperty a (Num delta) d = shift_entry a delta d /\
  (forall k, entry_room (shift_entry a delta d !! k) w).
Proof.
  intros Hw H. unfold _update_subproperty, shift_entry, js_add_undef.
  pose proof (H a) as Ha.
  destruct (d !! a) as [e|] eqn:E; cbn [entry_room] in Ha.
  - destruct (room_step e delta w Hw Ha) as [Eq R]. rewrite Eq.
    split; [reflexivity|]. intros k.
    destruct (decide (a = k)) as [->|Hne].
    + rewrite lookup_insert_eq. exact R.
    + rewrite lookup_insert_ne by exact Hne.
      pose proof (H k) as Hk. destruct (d !! k) as [c|]; [|exact I].
      cbn [entry_room] in *. eapply room_weaken; [|exact Hk]. lia.
  - split; [reflexivity|]. intros k.
    destruct (decide (a = k)) as [->|Hne].
    + rewrite lookup_insert_eq. exact I.
    + rewrite lookup_insert_ne by exact Hne.
      pose proof (H k) as Hk. destruct (d !! k) as [c|]; [|exact I].
      cbn [entry_room] in *. eapply room_weaken; [|exact Hk]. lia.
Qed.

Lemma entry_room_singleton (k a : string) (c : number) (w : Z) :
  room c w -> entry_room (({[ k := c ]} : gmap string number) !! a) w.
Proof.
  intros H. destruct (decide (k = a)) as [->|Hne].
  - rewrite lookup_singleton_eq. exact H.
  - rewrite lookup_singleton_ne by exact Hne. exact I.
Qed.

(** With room for it, a leg is applied exactly, and room is left for the
    other legs. *)
Lemma on_trade_leg_exact (h : holdings) (l : leg) (ls : list leg) :
  within h (l :: ls) ->
  on_trade_leg h l = exact_leg h l /\ within (exact_leg h l) ls.
Proof.
  intros (Rc & Rd & Ra & Rs).
  pose proof (cash_weight_nonneg ls) as Wc.
  pose proof (volume_weight_nonneg ls) as Wv.
  cbn [cash_weight volume_weight] in Rc, Rd, Ra, Rs.
  unfold on_trade_leg, exact_leg, within, cash_delta, asset_delta.
  rewrite <- !update_subproperty_sub.
  change (@entry_add) with (fun a v => _update_subproperty a (Num v)).
  cbv beta zeta.
  destruct (leg_is_bid l);
    cbn [available_cash settled_cash available_assets settled_assets].
  - destruct (room_step_sub _ _ _ Wc Rc) as [E1 R1].
    destruct (room_step_sub _ _ _ Wc Rd) as [E2 R2].
    destruct (entry_step (leg_asset l) _ _ _ Wv Ra) as [E3 R3].
    destruct (entry_step (leg_asset l) _ _ _ Wv Rs) as [E4 R4].
    rewrite E1, E2, E3, E4. repeat split; assumption.
  - destruct (room_step _ _ _ Wc Rc) as [E1 R1].
    destruct (room_step _ _ _ Wc Rd) as [E2 R2].
    assert (forall d : gmap string number,
              (forall k, entry_room (d !! k)
                           (Z.abs (leg_volume l) + volume_weight ls)) ->
              forall k, entry_room (d !! k)
                          (Z.abs (- leg_volume l) + volume_weight ls))
      as Hopp by (intros d H k; rewrite Z.abs_opp; apply H).
    destruct (entry_step (leg_asset l) _ _ _ Wv (Hopp _ Ra)) as [E3 R3].
    destruct (entry_step (leg_asset l) _ _ _ Wv (Hopp _ Rs)) as [E4 R4].
    rewrite E1, E2, E3, E4. repeat split; assumption.
Qed.

Lemma fold_on_trade_leg_exact (ls : list leg) (h : holdings) :
  within h ls ->
  fold_left on_trade_leg ls h = fold_left exact_leg ls h.
Proof.
  revert h. induction ls as [|l rest IH]; intros h H; [reflexivity|].
  cbn [fold_left]. destruct (on_trade_leg_exact h l rest H) as [E W].
  rewrite E. apply IH, W.
Qed.

Lemma cash_weight_Permutation (ls ls' : list leg) :
  ls ≡ₚ ls' -> cash_weight ls = cash_weight ls'.
Proof. induction 1; simpl; lia. Qed.

Lemma volume_weight_Permutation (ls ls' : list leg) :
  ls ≡ₚ ls' -> volume_weight ls = volume_weight ls'.
Proof. induction 1; simpl; lia. Qed.

Lemma within_Permutation (h : holdings) (ls ls' : list leg) :
  ls ≡ₚ ls' -> within h ls -> within h ls'.
Proof.
  intros P. unfold within.
  rewrite (cash_weight_Permutation _ _ P), (volume_weight_Permutation _ _ P).
  auto.
Qed.

(** ** The legs of a trade commute *)

Lemma shifted_comm (c : number) (x y : Z) :
  shifted (shifted c x) y = shifted (shifted c y) x.
Proof. destruct c; simpl; [f_equal; lia|reflexivity|reflexivity]. Qed.

Lemma shift_entry_comm (a1 a2 : string) (x1 x2 : Z)
    (d : gmap string number) :
  shift_entry a1 x1 (shift_entry a2 x2 d) =
  shift_entry a2 x2 (shift_entry a1 x1 d).
Proof.
  unfold shift_entry.
  destruct (decide (a1 = a2)) as [->|Hne].
  - rewrite !lookup_insert_eq, !insert_insert_eq. f_equal.
    destruct (d !! a2) as [e|]; [apply shifted_comm|reflexivity].
  - rewrite (lookup_insert_ne _ a2 a1) by congruence.
    rewrite (lookup_insert_ne _ a1 a2) by congruence.
    apply insert_insert_ne. congruence.
Qed.

Lemma exact_leg_comm (h : holdings) (l1 l2 : leg) :
  exact_leg (exact_leg h l1) l2 = exact_leg (exact_leg h l2) l1.
Proof.
  unfold exact_leg.
  cbn [available_cash settled_cash available_assets settled_assets].
  f_equal; first [apply shifted_comm | apply shift_entry_comm].
Qed.

Lemma fold_exact_leg_Permutation (ls ls' : list leg) :
  ls ≡ₚ ls' ->
  forall h, fold_left exact_leg ls h = fold_left exact_leg ls' h.
Proof.
  induction 1 as [|l ls ls' _ IH|l1 l2 ls|ls ls' ls'' _ IH1 _ IH2];
    intros h; simpl.
  - reflexivity.
  - apply IH.
  - rewrite exact_leg_comm. reflexivity.
  - rewrite IH1. apply IH2.
Qed.

(** X10: as long as no rounding occurs, the holdings after a
    [confirm_trade] do not depend on the order in which the message lists
    its making orders: for two trades with the same taking order and the
    same making orders in any order, whose legs for the viewer name their
    assets by plain names (no ['.'], no property of [Object.prototype]),
    and holdings that have room for these legs (each cash value plus the
    magnitudes of all their cash amounts, and each dictionary entry plus
    the magnitudes of all their volumes, stay within 2^53), the four
    holdings come out the same. *)
Theorem X10_holdings_independent_of_leg_order :
  forall (s : state) (msg msg' : trade),
    taking_order msg = taking_order msg' ->
    making_orders msg ≡ₚ making_orders msg' ->
    plain_legs (viewer_legs (this_pcode s) msg) ->
    within (holdings_of s) (viewer_legs (this_pcode s) msg) ->
    holdings_of (_handle_confirm_trade msg s) =
    holdings_of (_handle_confirm_trade msg' s).
Proof.
  intros s msg msg' Ht Hm _ Hw.
  assert (viewer_legs (this_pcode s) msg ≡ₚ viewer_legs (this_pcode s) msg')
    as P.
  { unfold viewer_legs. rewrite Ht. apply Permutation_flat_map, Hm. }
  rewrite !confirm_trade_viewer_legs.
  rewrite (fold_on_trade_leg_exact _ _ Hw).
  rewrite (fold_on_trade_leg_exact _ _ (within_Permutation _ _ _ P Hw)).
  apply fold_exact_leg_Permutation, P.
Qed.

Lemma X10_holdings_independent_witness :
  holdings_of (_handle_confirm_trade taken_trade resting_state) =
  holdings_of (_handle_confirm_trade taken_trade_swapped resting_state).
Proof.
  apply (X10_holdings_independent_of_leg_order resting_state
           taken_trade taken_trade_swapped).
  - reflexivity.
  - apply Permutation_swap.
  - unfold plain_legs. repeat constructor.
  - unfold within. split; [|split; [|split]].
    + vm_compute. discriminate.
    + vm_compute. discriminate.
    + intros a. apply entry_room_singleton. vm_compute. discriminate.
    + intros a. apply entry_room_singleton. vm_compute. discriminate.
Defined.

(** ** Buying from oneself *)

Lemma shifted_back (c : number) (delta : Z) :
  shifted (shifted c delta) (- delta) = c.
Proof. destruct c; simpl; [f_equal; lia|reflexivity|reflexivity]. Qed.

Lemma shift_entry_back (a : string) (delta : Z) (d : gmap string number) :
  is_Some (d !! a) ->
  shift_entry a (- delta) (shift_entry a delta d) = d.
Proof.
  intros [e He]. unfold shift_entry.
  rewrite lookup_insert_eq, insert_insert_eq, He, shifted_back.
  apply insert_id, He.
Qed.

(** In exact arithmetic a leg and the same leg on the other side undo each
    other. *)
Lemma opposite_exact_legs_cancel (h : holdings) (l l' : leg) :
  leg_price l' = leg_price l -> leg_volume l' = leg_volume l ->
  leg_asset l' = leg_asset l -> leg_is_bid l' = negb (leg_is_bid l) ->
  is_Some (available_assets h !! leg_asset l) ->
  is_Some (settled_assets h !! leg_asset l) ->
  exact_leg (exact_leg h l) l' = h.
Proof.
  intros Hp Hv Ha Hb Hav Hse.
  assert (cash_delta l' = - cash_delta l) as Ec.
  { unfold cash_delta. rewrite Hp, Hv, Hb.
    destruct (leg_is_bid l); cbn [negb]; lia. }
  assert (asset_delta l' = - asset_delta l) as Ea.
  { unfold asset_delta. rewrite Hv, Hb.
    destruct (leg_is_bid l); cbn [negb]; lia. }
  unfold exact_leg.
  cbn [available_cash settled_cash available_assets settled_assets].
  rewrite Ec, Ea, Ha, !shifted_back.
  rewrite !shift_entry_back by assumption.
  destruct h. reflexivity.
Qed.

(** X11: a trade of the viewer with itself moves nothing, as long as no
    rounding occurs: when the viewer owns the taking order and every making
    order, each making order is on the other side of the taking order and
    for the same asset, the name of that asset is plain (no ['.'], no
    property of [Object.prototype]), both dictionaries have an entry for
    it, and the holdings have room for the legs of the trade (each cash
    value plus the magnitudes of all their cash amounts, and each
    dictionary entry plus the magnitudes of all their volumes, stay within
    2^53), the four holdings after the [confirm_trade] are what they were
    before it. *)
Theorem X11_self_trade_leaves_holdings :
  forall (s : state) (msg : trade),
    pcode (taking_order msg) = this_pcode s ->
    Forall (fun m => pcode m = this_pcode s /\
                     is_bid m = negb (is_bid (taking_order msg)) /\
                     asset_name m = asset_name (taking_order msg))
           (making_orders msg) ->
    is_Some (availableAssetsDict s !! asset_name (taking_order msg)) ->
    is_Some (settledAssetsDict s !! asset_name (taking_order msg)) ->
    plain_legs (viewer_legs (this_pcode s) msg) ->
    within (holdings_of s) (viewer_legs (this_pcode s) msg) ->
    holdings_of (_handle_confirm_trade msg s) = holdings_of s.
Proof.
  intros s msg Ht Hm Hav Hse _ Hw.
  rewrite confirm_trade_viewer_legs.
  rewrite (fold_on_trade_leg_exact _ _ Hw). clear Hw.
  unfold viewer_legs. rewrite Ht, String.eqb_refl.
  induction Hm as [|m rest (Hp & Hb & Ha) _ IH]; [reflexivity|].
  cbn [flat_map]. rewrite Hp, String.eqb_refl.
  cbn [app fold_left].
  rewrite opposite_exact_legs_cancel;
    [exact IH|reflexivity|reflexivity| | | |].
  - cbn [taker_leg maker_leg leg_asset]. symmetry. exact Ha.
  - cbn [taker_leg maker_leg leg_is_bid]. rewrite Hb, negb_involutive.
    reflexivity.
  - cbn [maker_leg leg_asset holdings_of available_assets].
    rewrite Ha. exact Hav.
  - cbn [maker_leg leg_asset holdings_of settled_assets].
    rewrite Ha. exact Hse.
Qed.

Lemma X11_self_trade_witness :
  holdings_of (_handle_confirm_trade self_trade resting_state) =
  holdings_of resting_state.
Proof.
  apply (X11_self_trade_leaves_holdings resting_state self_trade).
  - reflexivity.
  - repeat constructor.
  - exists (Num 10). reflexivity.
  - exists (Num 10). reflexivity.
  - unfold plain_legs. repeat constructor.
  - unfold within. split; [|split; [|split]].
    + vm_compute. discriminate.
    + vm_compute. discriminate.
    + intros a. apply entry_room_singleton. vm_compute. discriminate.
    + intros a. apply entry_room_singleton. vm_compute. discriminate.
Defined.

(** ** The settled holdings under entries and cancels *)

Lemma confirm_enter_settled (o : order) (s : state) :
  settledCash (_handle_confirm_enter o s) = settledCash s /\
  settledAssetsDict (_handle_confirm_enter o s) = settledAssetsDict s.
Proof.
  unfold _handle_confirm_enter, _insert_bid, _insert_ask. simpl.
  destruct (is_bid o); destruct (String.eqb _ _); split; reflexivity.
Qed.

Lemma confirm_cancel_settled (o : order) (s : state) :
  settledCash (_handle_confirm_cancel o s) = settledCash s /\
  settledAssetsDict (_handle_confirm_cancel o s) = settledAssetsDict s.
Proof.
  pose proof (remove_order_frame o s) as F. cbv zeta in F.
  destruct F as (_ & _ & SD & _ & SC & _).
  unfold _handle_confirm_cancel. cbv zeta.
  destruct (String.eqb (pcode o) (this_pcode (_remove_order o s)));
    destruct (is_bid o); split; first [exact SC|exact SD].
Qed.

(** ** Trades and reservations *)

Lemma exact_leg_cash_gap (h : holdings) (l : leg) (c d : Z) :
  available_cash h = Num c -> settled_cash h = Num d ->
  exists c' d',
    available_cash (exact_leg h l) = Num c' /\
    settled_cash (exact_leg h l) = Num d' /\ d' - c' = d - c.
Proof.
  intros Hc Hd. unfold exact_leg. cbn [available_cash settled_cash].
  rewrite Hc, Hd. cbn [shifted]. eexists. eexists.
  split; [reflexivity|]. split; [reflexivity|]. lia.
Qed.

Lemma exact_leg_asset_gap (h : holdings) (l : leg) (a : string)
    (x y : Z) :
  available_assets h !! a = Some (Num x) ->
  settled_assets h !! a = Some (Num y) ->
  exists x' y',
    available_assets (exact_leg h l) !! a = Some (Num x') /\
    settled_assets (exact_leg h l) !! a = Some (Num y') /\
    y' - x' = y - x.
Proof.
  intros Hx Hy. unfold exact_leg, shift_entry.
  cbn [available_assets settled_assets].
  destruct (decide (leg_asset l = a)) as [->|Hne].
  - rewrite !lookup_insert_eq, Hx, Hy. cbn [shifted]. eexists. eexists.
    split; [reflexivity|]. split; [reflexivity|]. lia.
  - rewrite !lookup_insert_ne by exact Hne. exists x, y.
    split; [assumption|]. split; [assumption|]. reflexivity.
Qed.

Lemma fold_exact_leg_gaps (ls : list leg) (h : holdings) :
  (forall c d,
     available_cash h = Num c -> settled_cash h = Num d ->
     exists c' d',
       available_cash (fold_left exact_leg ls h) = Num c' /\
       settled_cash (fold_left exact_leg ls h) = Num d' /\
       d' - c' = d - c) /\
  (forall a x y,
     available_assets h !! a = Some (Num x) ->
     settled_assets h !! a = Some (Num y) ->
     exists x' y',
       available_assets (fold_left exact_leg ls h) !! a = Some (Num x') /\
       settled_assets (fold_left exact_leg ls h) !! a = Some (Num y') /\
       y' - x' = y - x).
Proof.
  revert h. induction ls as [|l rest IH]; intros h; simpl.
  - split.
    + intros c d Hc Hd. exists c, d. repeat split; assumption.
    + intros a x y Hx Hy. exists x, y. repeat split; assumption.
  - destruct (IH (exact_leg h l)) as [IHc IHa]. split.
    + intros c d Hc Hd.
      destruct (exact_leg_cash_gap h l c d Hc Hd) as (c1 & d1 & H1 & H2 & G).
      destruct (IHc c1 d1 H1 H2) as (c2 & d2 & H3 & H4 & G').
      exists c2, d2. repeat split; [assumption|assumption|lia].
    + intros a x y Hx Hy.
      destruct (exact_leg_asset_gap h l a x y Hx Hy)
        as (x1 & y1 & H1 & H2 & G).
      destruct (IHa a x1 y1 H1 H2) as (x2 & y2 & H3 & H4 & G').
      exists x2, y2. repeat split; [assumption|assumption|lia].
Qed.

(** X12: as long as no rounding occurs, a trade moves the available and the
    settled holdings together: when the viewer's legs of the trade name
    their assets by plain names (no ['.'], no property of
    [Object.prototype]) and the holdings have room for them (each cash
    value plus the magnitudes of all their cash amounts, and each
    dictionary entry plus the magnitudes of all their volumes, stay within
    2^53), the difference between [settledCash] and
    [availableCash], and for each asset the difference between its settled
    and its available amount, are the same after a [confirm_trade] as before
    it (for holdings that are numbers).  What an entry has reserved is
    therefore not given back by the trade that executes the order. *)
Theorem X12_trade_keeps_the_reserved_amounts :
  forall (s : state) (msg : trade),
    plain_legs (viewer_legs (this_pcode s) msg) ->
    within (holdings_of s) (viewer_legs (this_pcode s) msg) ->
    let s' := _handle_confirm_trade msg s in
    (forall c d,
       availableCash s = Num c -> settledCash s = Num d ->
       exists c' d',
         availableCash s' = Num c' /\ settledCash s' = Num d' /\
         d' - c' = d - c) /\
    (forall a x y,
       availableAssetsDict s !! a = Some (Num x) ->
       settledAssetsDict s !! a = Some (Num y) ->
       exists x' y',
         availableAssetsDict s' !! a = Some (Num x') /\
         settledAssetsDict s' !! a = Some (Num y') /\
         y' - x' = y - x).
Proof.
  intros s msg _ Hw. cbv zeta.
  pose proof (confirm_trade_viewer_legs s msg) as H.
  rewrite (fold_on_trade_leg_exact _ _ Hw) in H.
  destruct (fold_exact_leg_gaps (viewer_legs (this_pcode s) msg)
              (holdings_of s)) as [Gc Ga].
  rewrite <- H in Gc, Ga. split.
  - intros c d Hc Hd. exact (Gc c d Hc Hd).
  - intros a x y Hx Hy. exact (Ga a x y Hx Hy).
Qed.

Lemma X12_trade_keeps_reserved_witness :
  exists c' d',
    availableCash (_handle_confirm_trade own_bid_filled
                     (_handle_confirm_enter own_bid fresh_state)) = Num c' /\
    settledCash (_handle_confirm_trade own_bid_filled
                   (_handle_confirm_enter own_bid fresh_state)) = Num d' /\
    d' - c' = 100 - 80.
Proof.
  refine (proj1 (X12_trade_keeps_the_reserved_amounts
                   (_handle_confirm_enter own_bid fresh_state)
                   own_bid_filled _ _) 80 100 _ _);
    [| |reflexivity|reflexivity].
  - unfold plain_legs. repeat constructor.
  - unfold within. split; [|split; [|split]].
    + vm_compute. discriminate.
    + vm_compute. discriminate.
    + intros a. apply entry_room_singleton. vm_compute. discriminate.
    + intros a. apply entry_room_singleton. vm_compute. discriminate.
Defined.

(** X13: the life of an own bid for an asset with a plain name (no ['.'],
    no property of [Object.prototype]) that is filled completely by
    somebody else's order, as long as no rounding occurs: the
    [confirm_enter] takes
    [price * volume] from [availableCash], and the [confirm_trade] then
    takes the same amount from [availableCash] again and from [settledCash]
    once, so that, the amount and every value the two go through being
    integers of magnitude at most 2^53, [availableCash] ends
    [2 * price * volume] lower and [settledCash] [price * volume] lower than
    they started. *)
Theorem X13_filled_own_bid_is_charged_twice_on_available :
  forall (s : state) (o m : order) (msg : trade) (c d : Z),
    pcode o = this_pcode s -> is_bid o = true ->
    availableCash s = Num c -> settledCash s = Num d ->
    making_orders msg = [m] ->
    pcode m = this_pcode s -> is_bid m = true ->
    price m = price o -> traded_volume m = volume o ->
    pcode (taking_order msg) <> this_pcode s ->
    plain_name (asset_name m) = true ->
    exact_sum c (- (price o * volume o)) ->
    exact_sum (c - price o * volume o) (- (price o * volume o)) ->
    exact_sum d (- (price o * volume o)) ->
    let s' := _handle_confirm_trade msg (_handle_confirm_enter o s) in
    availableCash s' = Num (c - 2 * (price o * volume o)) /\
    settledCash s' = Num (d - price o * volume o).
Proof.
  intros s o m msg c d Ho Hb Hc Hd Hms Hm Hmb Hp Hv Ht _
    (Sc & Sa & Sc1) (_ & _ & Sc2) (Sd & _ & Sd1). cbv zeta.
  apply safe_opp in Sa. rewrite Z.opp_involutive in Sa.
  pose proof (confirm_trade_viewer_legs (_handle_confirm_enter o s) msg)
    as H.
  unfold viewer_legs in H. rewrite Hms, confirm_enter_pcode in H.
  apply String.eqb_neq in Ht. cbn [flat_map] in H.
  rewrite Ht, Hm, String.eqb_refl in H.
  cbn [app fold_left] in H.
  destruct (confirm_enter_available o s) as [Ce _].
  rewrite Ho, String.eqb_refl, Hb, Hc in Ce. cbn [andb] in Ce.
  rewrite (js_sub_exact c _ Sc Sa Sc1) in Ce.
  assert (settledCash (_handle_confirm_enter o s) = Num d) as Se.
  { rewrite <- Hd. apply confirm_enter_settled. }
  apply (f_equal (fun h => (available_cash h, settled_cash h))) in H.
  unfold on_trade_leg in H. cbn [maker_leg leg_is_bid leg_price leg_volume
    holdings_of available_cash settled_cash] in H.
  rewrite Hmb in H. cbn [available_cash settled_cash] in H.
  rewrite Ce, Se, Hp, Hv in H.
  rewrite (js_sub_exact (c - price o * volume o) _) in H;
    [|exact Sc1|exact Sa|exact Sc2].
  rewrite (js_sub_exact d _ Sd Sa Sd1) in H.
  pose proof (f_equal fst H) as H1. pose proof (f_equal snd H) as H2.
  cbn [fst snd] in H1, H2.
  split; (etransitivity; [eassumption|]); f_equal; lia.
Qed.

Lemma X13_filled_own_bid_witness :
  let s' := _handle_confirm_trade own_bid_filled
              (_handle_confirm_enter own_bid fresh_state) in
  availableCash s' = Num (100 - 2 * (5 * 4)) /\
  settledCash s' = Num (100 - 5 * 4).
Proof.
  apply (X13_filled_own_bid_is_charged_twice_on_available
           fresh_state own_bid (mk_order 13 "P1" true 5 4 1 4)
           own_bid_filled 100 100);
    first [ reflexivity | discriminate
          | unfold exact_sum, safe; vm_compute; repeat split; discriminate ].
Defined.

(** ** What no handler undoes in the holdings *)

Lemma entries_kept_refl (d : gmap string number) : entries_kept d d.
Proof. intros a. split; auto. Qed.

Lemma entries_kept_trans (d1 d2 d3 : gmap string number) :
  entries_kept d1 d2 -> entries_kept d2 d3 -> entries_kept d1 d3.
Proof.
  intros H1 H2 a. destruct (H1 a) as [A1 B1]. destruct (H2 a) as [A2 B2].
  split; auto.
Qed.

Lemma holdings_kept_refl (h : holdings) : holdings_kept h h.
Proof.
  split; [|split; [|split]];
    first [intros ?; assumption | apply entries_kept_refl].
Qed.

Lemma holdings_kept_trans (h1 h2 h3 : holdings) :
  holdings_kept h1 h2 -> holdings_kept h2 h3 -> holdings_kept h1 h3.
Proof.
  intros (A1 & B1 & C1 & D1) (A2 & B2 & C2 & D2).
  split; [|split; [|split]].
  - intros H. apply A2, A1, H.
  - intros H. apply B2, B1, H.
  - eapply entries_kept_trans; eassumption.
  - eapply entries_kept_trans; eassumption.
Qed.

Lemma number_kept_add (c x : number) : number_kept c (js_add c x).
Proof. intros ->. reflexivity. Qed.

Lemma number_kept_sub (c x : number) : number_kept c (js_sub c x).
Proof. intros ->. reflexivity. Qed.

Lemma entries_kept_update (a : string) (x : number)
    (d : gmap string number) :
  entries_kept d (_update_subproperty a x d).
Proof.
  intros k. unfold _update_subproperty.
  destruct (decide (a = k)) as [->|Hne].
  - rewrite lookup_insert_eq. split.
    + intros _. eexists. reflexivity.
    + intros ->. reflexivity.
  - rewrite lookup_insert_ne by exact Hne. split; auto.
Qed.

Lemma on_trade_leg_kept (h : holdings) (l : leg) :
  holdings_kept h (on_trade_leg h l).
Proof.
  unfold on_trade_leg. rewrite <- !update_subproperty_sub.
  change (@entry_add) with (fun a v => _update_subproperty a (Num v)).
  destruct (leg_is_bid l); (split; [|split; [|split]]);
    cbn [available_cash settled_cash available_assets settled_assets];
    first [ apply number_kept_add | apply number_kept_sub
          | apply entries_kept_update ].
Qed.

Lemma fold_on_trade_leg_kept (ls : list leg) (h : holdings) :
  holdings_kept h (fold_left on_trade_leg ls h).
Proof.
  revert h. induction ls as [|l rest IH]; intros h; simpl.
  - apply holdings_kept_refl.
  - eapply holdings_kept_trans; [apply on_trade_leg_kept|apply IH].
Qed.

Lemma confirm_enter_kept (o : order) (s : state) :
  holdings_kept (holdings_of s) (holdings_of (_handle_confirm_enter o s)).
Proof.
  destruct (confirm_enter_available o s) as [C D].
  destruct (confirm_enter_settled o s) as [SC SD].
  unfold holdings_kept, holdings_of.
  cbn [available_cash settled_cash available_assets settled_assets].
  rewrite C, D, SC, SD. clear C D SC SD.
  split; [|split; [|split]].
  - destruct (String.eqb (pcode o) (this_pcode s) && is_bid o);
      [apply number_kept_sub|intros ?; assumption].
  - intros ?; assumption.
  - destruct (String.eqb (pcode o) (this_pcode s) && negb (is_bid o));
      [apply entries_kept_update|apply entries_kept_refl].
  - apply entries_kept_refl.
Qed.

Lemma confirm_cancel_kept (o : order) (s : state) :
  holdings_kept (holdings_of s) (holdings_of (_handle_confirm_cancel o s)).
Proof.
  destruct (confirm_cancel_available o s) as [C D].
  destruct (confirm_cancel_settled o s) as [SC SD].
  unfold holdings_kept, holdings_of.
  cbn [available_cash settled_cash available_assets settled_assets].
  rewrite C, D, SC, SD. clear C D SC SD.
  split; [|split; [|split]].
  - destruct (String.eqb (pcode o) (this_pcode s) && is_bid o);
      [apply number_kept_add|intros ?; assumption].
  - intros ?; assumption.
  - destruct (String.eqb (pcode o) (this_pcode s) && negb (is_bid o));
      [apply entries_kept_update|apply entries_kept_refl].
  - apply entries_kept_refl.
Qed.

(** X14: over a whole session of well-formed messages every event is
    handled and no handler ever repairs or forgets a holding: once
    [availableCash] or [settledCash] is [NaN] it stays [NaN], an asset that
    has an entry in [availableAssetsDict] or [settledAssetsDict] keeps
    having one, and an entry that is [NaN] stays [NaN]. *)
Theorem X14_holdings_never_recover_nor_vanish :
  forall (msgs : list message) (s : state) (k : nat),
    forallb well_formed msgs = true ->
    exists s', run (take k msgs) s = Some s' /\
               holdings_kept (holdings_of s) (holdings_of s').
Proof.
  intros msgs s k Hwf.
  apply (run_invariant
           (fun s' => holdings_kept (holdings_of s) (holdings_of s')));
    [| | | |apply forallb_take, Hwf|apply holdings_kept_refl].
  - intros o s0 H. eapply holdings_kept_trans; [exact H|].
    apply confirm_enter_kept.
  - intros t s0 H. eapply holdings_kept_trans; [exact H|].
    rewrite confirm_trade_viewer_legs. apply fold_on_trade_leg_kept.
  - intros o s0 H. eapply holdings_kept_trans; [exact H|].
    apply confirm_cancel_kept.
  - intros e s0 H. unfold _handle_error.
    destruct (String.eqb _ _); exact H.
Qed.

Lemma X14_holdings_never_recover_witness :
  exists s', run (take 11 busy_session) state_with_NaN = Some s' /\
             holdings_kept (holdings_of state_with_NaN) (holdings_of s').
Proof.
  apply (X14_holdings_never_recover_nor_vanish busy_session
           state_with_NaN 11).
  reflexivity.
Defined.

(** ** An asset without an entry *)

Lemma update_subproperty_missing (a : string) (x : number)
    (d : gmap string number) :
  d !! a = None -> _update_subproperty a x d = <[a := NaN]> d.
Proof. intros H. unfold _update_subproperty. rewrite H. reflexivity. Qed.

(** X15: an update for an asset with a plain name (no ['.'], no property
    of [Object.prototype]) that has no entry does not fail and does not
    start from zero: it creates the entry with [NaN].  That is what
    entering or cancelling an own ask for such an asset does to
    [availableAssetsDict], and what a trade leg for such an asset does to
    both dictionaries, whatever the volume. *)
Theorem X15_missing_asset_entry_becomes_NaN :
  forall (s : state),
    (forall o,
       pcode o = this_pcode s -> is_bid o = false ->
       plain_name (asset_name o) = true ->
       availableAssetsDict s !! asset_name o = None ->
       availableAssetsDict (_handle_confirm_enter o s) =
         <[asset_name o := NaN]> (availableAssetsDict s) /\
       availableAssetsDict (_handle_confirm_cancel o s) =
         <[asset_name o := NaN]> (availableAssetsDict s)) /\
    (forall p v b a,
       plain_name a = true ->
       availableAssetsDict s !! a = None ->
       settledAssetsDict s !! a = None ->
       availableAssetsDict (_update_holdings p v b a s) =
         <[a := NaN]> (availableAssetsDict s) /\
       settledAssetsDict (_update_holdings p v b a s) =
         <[a := NaN]> (settledAssetsDict s)).
Proof.
  intros s. split.
  - intros o Ho Hb _ Hnone.
    destruct (confirm_enter_available o s) as [_ De].
    destruct (confirm_cancel_available o s) as [_ Dc].
    rewrite De, Dc, Ho, String.eqb_refl, Hb. cbn [andb negb].
    rewrite !update_subproperty_missing by exact Hnone.
    split; reflexivity.
  - intros p v b a _ Ha Hs. unfold _update_holdings.
    destruct b; cbn [availableAssetsDict settledAssetsDict
      set_availableAssetsDict set_settledAssetsDict set_availableCash
      set_settledCash];
      rewrite !update_subproperty_missing by assumption;
      split; reflexivity.
Qed.

Lemma X15_missing_asset_entry_witness :
  availableAssetsDict (_handle_confirm_enter own_ask state_without_asset) =
    <[asset_name own_ask := NaN]> (availableAssetsDict state_without_asset) /\
  availableAssetsDict (_handle_confirm_cancel own_ask state_without_asset) =
    <[asset_name own_ask := NaN]> (availableAssetsDict state_without_asset).
Proof.
  apply (proj1 (X15_missing_asset_entry_becomes_NaN state_without_asset));
    reflexivity.
Defined.

(** ** The countdown *)

Lemma fire_idle (n : nat) (t : timer) : pending t = false -> fire n t = t.
Proof. intros H. destruct n; simpl; [reflexivity|]. rewrite H. reflexivity. Qed.

Lemma fire_counts_down (k n : nat) :
  (k < n)%nat ->
  fire n {| timeRemaining := Some (Z.of_nat k); pending := true |} =
  {| timeRemaining := Some 0; pending := false |}.
Proof.
  revert n. induction k as [|k IH]; intros n Hn.
  - destruct n as [|n]; [lia|]. simpl. apply fire_idle. reflexivity.
  - destruct n as [|n]; [lia|]. cbn [fire pending]. unfold tick.
    cbn [timeRemaining].
    destruct (Z.leb_spec (Z.of_nat (S k)) 0) as [H|H]; [lia|].
    replace (Z.of_nat (S k) - 1) with (Z.of_nat k) by lia.
    apply IH. lia.
Qed.

Lemma fire_stays_in_range (n k : nat) :
  exists m,
    timeRemaining
      (fire n {| timeRemaining := Some (Z.of_nat k); pending := true |})
      = Some m /\ 0 <= m <= Z.of_nat k.
Proof.
  revert k. induction n as [|n IH]; intros k.
  - exists (Z.of_nat k). split; [reflexivity|lia].
  - cbn [fire pending]. unfold tick. cbn [timeRemaining].
    destruct (Z.leb_spec (Z.of_nat k) 0) as [H|H].
    + rewrite fire_idle by reflexivity.
      exists (Z.of_nat k). split; [reflexivity|lia].
    + destruct k as [|k]; [simpl in H; lia|].
      replace (Z.of_nat (S k) - 1) with (Z.of_nat k) by lia.
      destruct (IH k) as (m & Hm & Hr). exists m. split; [exact Hm|lia].
Qed.

(** X16: the countdown started on a whole number [z] of seconds: whenever
    more than [z] timeouts have fired it stands at 0 if [z] was positive and
    is left at [z] otherwise, with no timeout waiting; for [z >= 0] it is
    within [0 .. z] at every moment in between, so it never goes below zero;
    and started on [null] or on 0 it schedules nothing at all. *)
Theorem X16_countdown_stops_at_zero :
  forall (z : Z),
    (forall n, (Z.to_nat z < n)%nat ->
       fire n (_start {| timeRemaining := Some z; pending := false |}) =
       {| timeRemaining := Some (Z.min z 0); pending := false |}) /\
    (0 <= z -> forall n, exists m,
       timeRemaining
         (fire n (_start {| timeRemaining := Some z; pending := false |}))
         = Some m /\ 0 <= m <= z) /\
    _start {| timeRemaining := None; pending := false |} =
      {| timeRemaining := None; pending := false |} /\
    _start {| timeRemaining := Some 0; pending := false |} =
      {| timeRemaining := Some 0; pending := false |}.
Proof.
  intros z. split; [|split; [|split; reflexivity]].
  - intros n Hn. unfold _start, not_timeRemaining. cbn [timeRemaining].
    destruct (Z.eqb_spec z 0) as [->|Hz].
    + rewrite fire_idle by reflexivity. reflexivity.
    + destruct (Z.lt_ge_cases z 0) as [Hneg|Hpos].
      * destruct n as [|n]; [lia|]. cbn [fire pending]. unfold tick.
        cbn [timeRemaining].
        destruct (Z.leb_spec z 0) as [_|H]; [|lia].
        rewrite fire_idle by reflexivity.
        rewrite Z.min_l by lia. reflexivity.
      * rewrite Z.min_r by lia.
        replace (Some z) with (Some (Z.of_nat (Z.to_nat z)))
          by (f_equal; apply Z2Nat.id; lia).
        apply fire_counts_down, Hn.
  - intros Hz n. unfold _start, not_timeRemaining. cbn [timeRemaining].
    destruct (Z.eqb_spec z 0) as [->|Hne].
    + rewrite fire_idle by reflexivity. exists 0. split; [reflexivity|lia].
    + destruct (fire_stays_in_range n (Z.to_nat z)) as (m & Hm & Hr).
      rewrite Z2Nat.id in Hm, Hr by lia.
      exists m. split; [exact Hm|exact Hr].
Qed.

Lemma X16_countdown_witness :
  fire 4 (_start {| timeRemaining := Some 3; pending := false |}) =
  {| timeRemaining := Some (Z.min 3 0); pending := false |}.
Proof.
  apply (proj1 (X16_countdown_stops_at_zero 3) 4%nat).
  simpl. lia.
Defined.

(** ** Error messages *)

(** X17: an [error] message goes through the dispatcher to [_handle_error]
    and never throws; addressed to another participant it leaves the whole
    component as it was, nothing emitted; addressed to the viewer it emits
    one ['error'] event carrying the message text and changes neither the
    books, nor the trades, nor the holdings. *)
Theorem X17_error_messages_are_filtered_by_pcode :
  forall (s : state) (e : error_payload),
    let msg := {| type := "error"; msg_payload := PError e |} in
    (error_pcode e <> this_pcode s ->
     _on_message msg s = Some (Returned s)) /\
    (error_pcode e = this_pcode s ->
     exists s',
       _on_message msg s = Some (Returned s') /\
       emitted s' = emitted s ++ [DispatchError (error_message e)] /\
       bids s' = bids s /\ asks s' = asks s /\ trades s' = trades s /\
       holdings_of s' = holdings_of s).
Proof.
  intros s e. cbv zeta. unfold _on_message. cbn [type msg_payload].
  change (message_handlers "error") with (Some Handle_error).
  cbn [call]. unfold _handle_error. split.
  - intros H. apply String.eqb_neq in H. rewrite H. reflexivity.
  - intros H. rewrite H, String.eqb_refl. eexists.
    split; [reflexivity|]. repeat split.
Qed.

Lemma X17_error_messages_witness :
  _on_message
    {| type := "error";
       msg_payload := PError {| error_pcode := "P2";
                                error_message := "rejected" |} |}
    fresh_state = Some (Returned fresh_state).
Proof.
  apply (proj1 (X17_error_messages_are_filtered_by_pcode fresh_state
                  {| error_pcode := "P2"; error_message := "rejected" |})).
  discriminate.
Defined.

(** ** The comparator *)

(** X18: [_compare_orders] is a comparator in the manner of [strcmp]:
    swapping the arguments negates the result; the result is zero exactly
    when the two orders have the same price and the same timestamp; it is
    negative exactly when the first order has the lower price, or the same
    price and the later timestamp, and positive exactly when it has the
    higher price, or the same price and the earlier timestamp. *)
Theorem X18_compare_orders_is_a_comparator :
  forall (o1 o2 : order),
    (_compare_orders o2 o1 == - _compare_orders o1 o2)%Q /\
    ((_compare_orders o1 o2 == 0)%Q <->
     price o1 = price o2 /\ (timestamp o1 == timestamp o2)%Q) /\
    ((_compare_orders o1 o2 < 0)%Q <->
     price o1 < price o2 \/
     (price o1 = price o2 /\ (timestamp o2 < timestamp o1)%Q)) /\
    ((0 < _compare_orders o1 o2)%Q <->
     price o2 < price o1 \/
     (price o1 = price o2 /\ (timestamp o1 < timestamp o2)%Q)).
Proof.
  intros o1 o2. split; [|split; [|split]].
  - unfold _compare_orders.
    destruct (Z.eqb_spec (price o1) (price o2)) as [E|E].
    + rewrite E, Z.eqb_refl. lra.
    + destruct (Z.eqb_spec (price o2) (price o1)) as [E'|_]; [congruence|].
      unfold Qeq. simpl. lia.
  - unfold _compare_orders.
    destruct (Z.eqb_spec (price o1) (price o2)) as [E|E].
    + split; [intros H; split; [exact E|lra]|intros [_ H]; lra].
    + split; [|intros [H _]; contradiction].
      unfold Qeq. simpl. intros H. lia.
  - rewrite <- Qltb_lt. apply compare_orders_neg.
  - rewrite <- Qltb_lt. apply compare_orders_pos.
Qed.

(** ** What the handlers emit *)

Lemma remove_order_emitted (o : order) (s : state) :
  emitted (_remove_order o s) = emitted s \/
  emitted (_remove_order o s) = emitted s ++ [not_found_warning o].
Proof.
  unfold _remove_order, not_found_warning.
  destruct (is_bid o); destruct (_ <=? _)%nat; simpl; auto.
Qed.

Lemma trade_leg_emitted (msg : trade) (s : state) (m : order) :
  emitted (trade_leg msg s m) = emitted s \/
  emitted (trade_leg msg s m) = emitted s ++ [not_found_warning m].
Proof.
  unfold trade_leg. cbv zeta.
  match goal with
  | |- context [_remove_order m ?s2] =>
      assert (emitted s2 = emitted s) as E;
      [|destruct (remove_order_emitted m s2) as [H|H]; rewrite H, E; auto]
  end.
  match goal with
  | |- emitted (if ?c2 then _update_holdings ?p2 ?v2 ?b2 ?a2 ?s1
                else _) = _ =>
      destruct (cond_update_holdings_frame c2 p2 v2 b2 a2 s1)
        as (_ & _ & _ & _ & E2); rewrite E2
  end.
  match goal with
  | |- emitted (if ?c1 then _update_holdings ?p1 ?v1 ?b1 ?a1 s
                else _) = _ =>
      destruct (cond_update_holdings_frame c1 p1 v1 b1 a1 s)
        as (_ & _ & _ & _ & E1); exact E1
  end.
Qed.

Lemma trade_legs_emitted (msg : trade) (ms : list order) (s : state) :
  exists missing,
    emitted (fold_left (trade_leg msg) ms s) =
      emitted s ++ (not_found_warning <$> missing) /\
    missing `sublist_of` ms.
Proof.
  revert s. induction ms as [|m rest IH]; intros s.
  - exists []. split; [simpl; rewrite app_nil_r; reflexivity|constructor].
  - cbn [fold_left].
    destruct (IH (trade_leg msg s m)) as (missing & He & Hsub).
    destruct (trade_leg_emitted msg s m) as [H|H]; rewrite H in He.
    + exists missing. split; [exact He|]. apply sublist_cons, Hsub.
    + exists (m :: missing). split.
      * rewrite He, <- app_assoc. reflexivity.
      * apply sublist_skip, Hsub.
Qed.

(** X19: every confirmation is passed on exactly once, after the replica
    has been brought up to date, with the payload it came with: a
    [confirm_enter] emits its notification and nothing else; a
    [confirm_cancel] emits at most the one not-found warning for its order
    and then its notification; a [confirm_trade] emits not-found warnings
    for some of its making orders, in the order of the message and at most
    one for each, and then its notification carrying the trade. *)
Theorem X19_each_confirmation_is_notified_once :
  forall (s : state),
    (forall o,
       emitted (_handle_confirm_enter o s) =
       emitted s ++ [Dispatch "confirm-order-enter" (POrder o)]) /\
    (forall o,
       emitted (_handle_confirm_cancel o s) =
         emitted s ++ [Dispatch "confirm-order-cancel" (POrder o)] \/
       emitted (_handle_confirm_cancel o s) =
         emitted s ++ [not_found_warning o;
                       Dispatch "confirm-order-cancel" (POrder o)]) /\
    (forall msg, exists missing,
       missing `sublist_of` making_orders msg /\
       emitted (_handle_confirm_trade msg s) =
         emitted s ++ (not_found_warning <$> missing)
                   ++ [Dispatch "confirm-trade" (PTrade msg)]).
Proof.
  intros s. split; [|split].
  - intros o. unfold _handle_confirm_enter, _insert_bid, _insert_ask. simpl.
    destruct (is_bid o); destruct (String.eqb _ _); reflexivity.
  - intros o.
    assert (emitted (_handle_confirm_cancel o s) =
            emitted (_remove_order o s)
              ++ [Dispatch "confirm-order-cancel" (POrder o)]) as E.
    { unfold _handle_confirm_cancel. cbv zeta.
      destruct (String.eqb _ _); destruct (is_bid o); reflexivity. }
    rewrite E. destruct (remove_order_emitted o s) as [H|H]; rewrite H.
    + left. reflexivity.
    + right. rewrite <- app_assoc. reflexivity.
  - intros msg.
    destruct (trade_legs_emitted msg (making_orders msg) s)
      as (missing & He & Hsub).
    exists missing. split; [exact Hsub|].
    unfold _handle_confirm_trade. cbv zeta.
    cbn [emitted emit set_trades]. rewrite He, trade_record_eta.
    rewrite <- app_assoc. reflexivity.
Qed.

(** ** Cancelling twice *)

Lemma confirm_cancel_pcode (o : order) (s : state) :
  this_pcode (_handle_confirm_cancel o s) = this_pcode s.
Proof.
  pose proof (remove_order_frame o s) as F. cbv zeta in F.
  destruct F as (P & _).
  unfold _handle_confirm_cancel. cbv zeta.
  destruct (String.eqb (pcode o) (this_pcode (_remove_order o s)));
    destruct (is_bid o); exact P.
Qed.

Lemma confirm_cancel_selected (o : order) (s : state) :
  selected_book o (_handle_confirm_cancel o s) =
  without_first (fun x => order_id x =? order_id o) (selected_book o s).
Proof.
  destruct (confirm_cancel_books o s) as [Eb Ea].
  rewrite <- remove_order_selected. unfold selected_book.
  destruct (is_bid o); assumption.
Qed.

(** X20: a second [confirm_cancel] for the same order, the ids in its book
    being unique, finds nothing: it leaves both books as the first cancel
    left them and emits the not-found warning before its notification.  The
    holdings are released all the same: for an own bid, as long as no
    rounding occurs (the amount and the values [availableCash] goes through
    being integers of magnitude at most 2^53), [availableCash] ends
    [2 * price * volume] above where it was before the two cancels. *)
Theorem X20_second_cancel_finds_nothing :
  forall (o : order) (s : state),
    NoDup (order_id <$> selected_book o s) ->
    let s1 := _handle_confirm_cancel o s in
    let s2 := _handle_confirm_cancel o s1 in
    bids s2 = bids s1 /\ asks s2 = asks s1 /\
    emitted s2 =
      emitted s1 ++ [not_found_warning o;
                     Dispatch "confirm-order-cancel" (POrder o)] /\
    (pcode o = this_pcode s -> is_bid o = true ->
     forall c, availableCash s = Num c ->
               exact_sum c (price o * volume o) ->
               exact_sum (c + price o * volume o) (price o * volume o) ->
               availableCash s2 = Num (c + 2 * (price o * volume o))).
Proof.
  intros o s Hnd. cbv zeta.
  set (s1 := _handle_confirm_cancel o s).
  assert (forall x, x ∈ selected_book o s1 -> order_id x <> order_id o)
    as Habsent.
  { intros x Hx. unfold s1 in Hx. rewrite confirm_cancel_selected in Hx.
    eapply without_first_id_gone; eassumption. }
  assert (_handle_confirm_cancel o s1 =
          emit (Dispatch "confirm-order-cancel" (POrder o))
            (let s' := emit (not_found_warning o) s1 in
             if String.eqb (pcode o) (this_pcode s') then
               if is_bid o
               then set_availableCash
                      (fun c => js_add c (Num (price o * volume o))) s'
               else set_availableAssetsDict
                      (_update_subproperty (asset_name o) (Num (volume o)))
                      s'
             else s')) as E.
  { unfold _handle_confirm_cancel at 1. cbv zeta.
    rewrite (remove_order_absent o s1 Habsent). reflexivity. }
  split; [|split; [|split]].
  - rewrite E. cbv zeta.
    destruct (String.eqb _ _); destruct (is_bid o); reflexivity.
  - rewrite E. cbv zeta.
    destruct (String.eqb _ _); destruct (is_bid o); reflexivity.
  - rewrite E. cbv zeta.
    destruct (String.eqb _ _); destruct (is_bid o); simpl;
      rewrite <- app_assoc; reflexivity.
  - intros Ho Hb c Hc (Sc & Sa & Sc1) (_ & _ & Sc2).
    destruct (confirm_cancel_available o s1) as [C2 _].
    destruct (confirm_cancel_available o s) as [C1 _].
    fold s1 in C1. rewrite C2, C1.
    unfold s1 at 1. rewrite confirm_cancel_pcode.
    rewrite Ho, String.eqb_refl, Hb, Hc. cbn [andb].
    rewrite (js_add_exact c _ Sc Sa Sc1).
    rewrite (js_add_exact _ _ Sc1 Sa Sc2). f_equal. lia.
Qed.

Lemma X20_second_cancel_witness :
  availableCash
    (_handle_confirm_cancel own_bid
       (_handle_confirm_cancel own_bid
          (_handle_confirm_enter own_bid fresh_state)))
  = Num (80 + 2 * (5 * 4)).
Proof.
  refine (proj2 (proj2 (proj2
            (X20_second_cancel_finds_nothing own_bid
               (_handle_confirm_enter own_bid fresh_state) _)))
            _ _ 80 _ _ _);
    first [ reflexivity
          | unfold exact_sum, safe; vm_compute; repeat split; discriminate
          | simpl; apply NoDup_singleton ].
Defined.

(** ** The trade history is never rewritten *)

Lemma confirm_enter_trades (o : order) (s : state) :
  trades (_handle_confirm_enter o s) = trades s.
Proof.
  unfold _handle_confirm_enter, _insert_bid, _insert_ask. simpl.
  destruct (is_bid o); destruct (String.eqb _ _); reflexivity.
Qed.

Lemma confirm_cancel_trades (o : order) (s : state) :
  trades (_handle_confirm_cancel o s) = trades s.
Proof.
  pose proof (remove_order_frame o s) as F. cbv zeta in F.
  destruct F as (_ & T & _).
  unfold _handle_confirm_cancel. cbv zeta.
  destruct (String.eqb (pcode o) (this_pcode (_remove_order o s)));
    destruct (is_bid o); exact T.
Qed.

(** X21: over a whole session of well-formed messages every event is
    handled and no trade ever leaves the trades list or changes its place
    relative to the older ones: the list at the start is still there, as
    the tail of the list, after every event. *)
Theorem X21_trade_history_is_kept :
  forall (msgs : list message) (s : state) (k : nat),
    forallb well_formed msgs = true ->
    exists s', run (take k msgs) s = Some s' /\
               trades s `suffix_of` trades s'.
Proof.
  intros msgs s k Hwf.
  apply (run_invariant (fun s' => trades s `suffix_of` trades s'));
    [| | | |apply forallb_take, Hwf|exists []; reflexivity].
  - intros o s0 H. rewrite confirm_enter_trades. exact H.
  - intros t s0 H. rewrite confirm_trade_prepends.
    apply suffix_cons_r, H.
  - intros o s0 H. rewrite confirm_cancel_trades. exact H.
  - intros e s0 H. unfold _handle_error.
    destruct (String.eqb _ _); exact H.
Qed.

Lemma X21_trade_history_witness :
  exists s', run (take 11 busy_session) traded_state = Some s' /\
             trades traded_state `suffix_of` trades s'.
Proof.
  apply (X21_trade_history_is_kept busy_session traded_state 11).
  reflexivity.
Defined.

(** ** The two sides of a trade *)

Lemma legs_conserve_cash (t : order) (M T : string) (ms : list order) :
  M <> T -> pcode t = T ->
  Forall (fun m => pcode m = M /\ is_bid m = negb (is_bid t)) ms ->
  forall (hM hT : holdings) (cM cT dM dT : Z),
    available_cash hM = Num cM -> available_cash hT = Num cT ->
    settled_cash hM = Num dM -> settled_cash hT = Num dT ->
    exists cM' cT' dM' dT',
      available_cash
        (fold_left exact_leg
           (flat_map
              (fun m =>
                 (if String.eqb (pcode m) M then [maker_leg m] else [])
                 ++ (if String.eqb (pcode t) M then [taker_leg t m] else []))
              ms) hM) = Num cM' /\
      available_cash
        (fold_left exact_leg
           (flat_map
              (fun m =>
                 (if String.eqb (pcode m) T then [maker_leg m] else [])
                 ++ (if String.eqb (pcode t) T then [taker_leg t m] else []))
              ms) hT) = Num cT' /\
      settled_cash
        (fold_left exact_leg
           (flat_map
              (fun m =>
                 (if String.eqb (pcode m) M then [maker_leg m] else [])
                 ++ (if String.eqb (pcode t) M then [taker_leg t m] else []))
              ms) hM) = Num dM' /\
      settled_cash
        (fold_left exact_leg
           (flat_map
              (fun m =>
                 (if String.eqb (pcode m) T then [maker_leg m] else [])
                 ++ (if String.eqb (pcode t) T then [taker_leg t m] else []))
              ms) hT) = Num dT' /\
      cM' + cT' = cM + cT /\ dM' + dT' = dM + dT.
Proof.
  intros Hne Ht Hms.
  assert (String.eqb (pcode t) M = false) as EtM
    by (apply String.eqb_neq; congruence).
  assert (String.eqb (pcode t) T = true) as EtT
    by (apply String.eqb_eq; exact Ht).
  rewrite EtM, EtT.
  induction Hms as [|m rest [Hm Hb] _ IH];
    intros hM hT cM cT dM dT HcM HcT HdM HdT.
  - exists cM, cT, dM, dT. repeat split; assumption.
  - cbn [flat_map].
    assert (String.eqb (pcode m) M = true) as EmM
      by (apply String.eqb_eq; exact Hm).
    assert (String.eqb (pcode m) T = false) as EmT
      by (apply String.eqb_neq; congruence).
    rewrite EmM, EmT. cbn [app fold_left].
    assert (exists cM1 cT1 dM1 dT1,
              available_cash (exact_leg hM (maker_leg m)) = Num cM1 /\
              available_cash (exact_leg hT (taker_leg t m)) = Num cT1 /\
              settled_cash (exact_leg hM (maker_leg m)) = Num dM1 /\
              settled_cash (exact_leg hT (taker_leg t m)) = Num dT1 /\
              cM1 + cT1 = cM + cT /\ dM1 + dT1 = dM + dT)
      as (cM1 & cT1 & dM1 & dT1 & H1 & H2 & H3 & H4 & G1 & G2).
    { unfold exact_leg, cash_delta.
      cbn [maker_leg taker_leg leg_is_bid leg_price leg_volume
           available_cash settled_cash].
      rewrite Hb, HcM, HcT, HdM, HdT. cbn [shifted].
      destruct (is_bid t); cbn [negb];
        do 4 eexists; repeat split; lia. }
    destruct (IH _ _ _ _ _ _ H1 H2 H3 H4)
      as (cM' & cT' & dM' & dT' & A1 & A2 & A3 & A4 & G3 & G4).
    exists cM', cT', dM', dT'.
    repeat split; try assumption; lia.
Qed.

(** X22: as long as no rounding occurs, a trade takes from one side what it
    gives to the other: when one participant owns all the making orders of a
    trade, another one the taking order, the making orders are on the other
    side of the taking order, the legs of the trade name their assets by
    plain names (no ['.'], no property of [Object.prototype]), and the
    holdings of each of the two replicas
    have room for its legs of the trade (each cash value plus the magnitudes
    of all their cash amounts, and each dictionary entry plus the magnitudes
    of all their volumes, stay within 2^53), the cash that the trade adds to
    the maker's replica is the cash it takes from the taker's replica, or
    the other way round: the sum of the two [availableCash], and the sum of
    the two [settledCash], are the same after the [confirm_trade] as
    before. *)
Theorem X22_trade_conserves_cash_between_the_two_sides :
  forall (sM sT : state) (msg : trade) (cM cT dM dT : Z),
    this_pcode sM <> this_pcode sT ->
    pcode (taking_order msg) = this_pcode sT ->
    Forall (fun m => pcode m = this_pcode sM /\
                     is_bid m = negb (is_bid (taking_order msg)))
           (making_orders msg) ->
    availableCash sM = Num cM -> availableCash sT = Num cT ->
    settledCash sM = Num dM -> settledCash sT = Num dT ->
    plain_legs (viewer_legs (this_pcode sM) msg) ->
    plain_legs (viewer_legs (this_pcode sT) msg) ->
    within (holdings_of sM) (viewer_legs (this_pcode sM) msg) ->
    within (holdings_of sT) (viewer_legs (this_pcode sT) msg) ->
    exists cM' cT' dM' dT',
      availableCash (_handle_confirm_trade msg sM) = Num cM' /\
      availableCash (_handle_confirm_trade msg sT) = Num cT' /\
      settledCash (_handle_confirm_trade msg sM) = Num dM' /\
      settledCash (_handle_confirm_trade msg sT) = Num dT' /\
      cM' + cT' = cM + cT /\ dM' + dT' = dM + dT.
Proof.
  intros sM sT msg cM cT dM dT Hne Ht Hms HcM HcT HdM HdT _ _ WM WT.
  pose proof (confirm_trade_viewer_legs sM msg) as EM.
  pose proof (confirm_trade_viewer_legs sT msg) as ET.
  rewrite (fold_on_trade_leg_exact _ _ WM) in EM.
  rewrite (fold_on_trade_leg_exact _ _ WT) in ET.
  unfold viewer_legs in EM, ET.
  destruct (legs_conserve_cash (taking_order msg) (this_pcode sM)
              (this_pcode sT) (making_orders msg) Hne Ht Hms
              (holdings_of sM) (holdings_of sT) cM cT dM dT
              HcM HcT HdM HdT)
    as (cM' & cT' & dM' & dT' & A1 & A2 & A3 & A4 & G1 & G2).
  rewrite <- EM in A1, A3. rewrite <- ET in A2, A4.
  exists cM', cT', dM', dT'. repeat split; assumption.
Qed.

Lemma X22_trade_conserves_cash_witness :
  exists cM' cT' dM' dT',
    availableCash (_handle_confirm_trade bought_from_P2 resting_state_of_P2)
      = Num cM' /\
    availableCash (_handle_confirm_trade bought_from_P2 resting_state)
      = Num cT' /\
    settledCash (_handle_confirm_trade bought_from_P2 resting_state_of_P2)
      = Num dM' /\
    settledCash (_handle_confirm_trade bought_from_P2 resting_state)
      = Num dT' /\
    cM' + cT' = 40 + 100 /\ dM' + dT' = 40 + 100.
Proof.
  apply (X22_trade_conserves_cash_between_the_two_sides
           resting_state_of_P2 resting_state bought_from_P2 40 100 40 100);
    try reflexivity.
  - discriminate.
  - repeat constructor.
  - unfold plain_legs. repeat constructor.
  - unfold plain_legs. repeat constructor.
  - unfold within. split; [|split; [|split]].
    + vm_compute. discriminate.
    + vm_compute. discriminate.
    + intros a. apply entry_room_singleton. vm_compute. discriminate.
    + intros a. apply entry_room_singleton. vm_compute. discriminate.
  - unfold within. split; [|split; [|split]].
    + vm_compute. discriminate.
    + vm_compute. discriminate.
    + intros a. apply entry_room_singleton. vm_compute. discriminate.
    + intros a. apply entry_room_singleton. vm_compute. discriminate.
Defined.
